(** * Apptainer starter core: master synchronisation, RPC file-info snapshot,
      and the LUKS2 crypt layer.

    A shallow embedding of
      - internal/app/starter/master_linux.go        (Module Starter)
      - internal/pkg/runtime/engine/apptainer/rpc/args.go (Module Rpc)
      - package crypt (EncryptFilesystem, Open, CloseCryptDevice,
        copyDeviceContents)                         (Module Crypt)

    Go integers are modelled as [Z] with the 64-bit wrap-around written
    out, strings as [string], byte slices as [list byte].  Calls into the
    operating system and into collaborating packages are answered by an
    environment record; the calls a function makes are recorded in a
    trace so that statements about "what was invoked before returning"
    can be expressed. *)

From Stdlib Require Import ZArith List String Ascii Bool Lia Arith.
From Stdlib Require Import DecimalString.
Import ListNotations.

Open Scope string_scope.
Open Scope Z_scope.

(** ** Go primitives shared by the three packages *)

Module Go.

(** Two's complement wrap-around of an [int64] result. *)
Definition wrap64 (z : Z) : Z := (z + 2 ^ 63) mod 2 ^ 64 - 2 ^ 63.

Definition int64_max : Z := 2 ^ 63 - 1.

(** [strings.HasPrefix] and [strings.Contains] on byte strings. *)
Fixpoint HasPrefix (s prefix : string) : bool :=
  match prefix with
  | EmptyString => true
  | String c p' =>
      match s with
      | EmptyString => false
      | String d s' => Ascii.eqb c d && HasPrefix s' p'
      end
  end.

Fixpoint Contains (s substr : string) : bool :=
  HasPrefix s substr ||
  match s with
  | EmptyString => false
  | String _ s' => Contains s' substr
  end.

(** [%d] of an integer. *)
Definition itoa (z : Z) : string := NilZero.string_of_int (Z.to_int z).

(** [x << n] on [int64]: bits shifted past the width are lost. *)
Definition shl64 (x n : Z) : Z := wrap64 (Z.shiftl x n).

End Go.

(** ** rpc/args.go : the [FileInfo] snapshot *)

Module Rpc.

(** [time.Time] as an instant: seconds since January 1, year 1 UTC and
    nanoseconds within the second.  [IsZero] is true of the zero value. *)
Record Time : Type := mkTime { t_sec : Z; t_nsec : Z }.

Definition zeroTime : Time := mkTime 0 0.

Definition IsZero (t : Time) : bool := (t_sec t =? 0) && (t_nsec t =? 0).

Definition FileMode : Type := Z.

(** [fs.ModeDir = 1 << 31]. *)
Definition ModeDir : FileMode := Z.shiftl 1 31.

Definition FileMode_IsDir (m : FileMode) : bool := negb (Z.land m ModeDir =? 0).

(** The [os.FileInfo] interface.  [ModTime] may consult the wall clock;
    the reading [time.Now()] would give at the moment of the call is its
    second argument. *)
Class OsFileInfo (A : Type) : Type := {
  Name : A -> string;
  Size : A -> Z;
  Mode : A -> FileMode;
  ModTime : A -> Time -> Time;
  IsDir : A -> bool;
  Sys : A -> option string
}.

(** [fileInfo] internal interface with exported fields. *)
Record fileInfo : Type := mkFileInfo {
  N : string;
  S : Z;
  M : FileMode;
  T : Time;
  Sy : option string
}.

Definition fileInfo_Name (fi : fileInfo) : string := N fi.
Definition fileInfo_Size (fi : fileInfo) : Z := S fi.
Definition fileInfo_Mode (fi : fileInfo) : FileMode := M fi.

Definition fileInfo_ModTime (fi : fileInfo) (now : Time) : Time :=
  if IsZero (T fi) then now else T fi.

Definition fileInfo_IsDir (fi : fileInfo) : bool := FileMode_IsDir (M fi).
Definition fileInfo_Sys (fi : fileInfo) : option string := Sy fi.

#[export] Instance fileInfo_OsFileInfo : OsFileInfo fileInfo := {
  Name := fileInfo_Name;
  Size := fileInfo_Size;
  Mode := fileInfo_Mode;
  ModTime := fileInfo_ModTime;
  IsDir := fileInfo_IsDir;
  Sys := fileInfo_Sys
}.

(** [FileInfo] returns the snapshot to be passed as RPC argument; [now]
    is the clock reading at construction, seen only by the captured
    value's own [ModTime]. *)
Definition FileInfo {A : Type} `{OsFileInfo A} (fi : A) (now : Time) : fileInfo :=
  {| N := Name fi;
     S := Size fi;
     M := Mode fi;
     T := ModTime fi now;
     Sy := Sys fi |}.

(** The value [os.Stat] and [os.Lstat] hand out: a plain record whose
    [ModTime] is the stored modification time. *)
Record fileStat : Type := mkFileStat {
  fs_name : string;
  fs_size : Z;
  fs_mode : FileMode;
  fs_modTime : Time;
  fs_sys : option string
}.

#[export] Instance fileStat_OsFileInfo : OsFileInfo fileStat := {
  Name := fs_name;
  Size := fs_size;
  Mode := fs_mode;
  ModTime := fun fi _ => fs_modTime fi;
  IsDir := fun fi => FileMode_IsDir (fs_mode fi);
  Sys := fs_sys
}.

(** A file whose modification time is the zero time, and one stamped one
    second and five nanoseconds after it. *)
Definition stat_unstamped : fileStat :=
  {| fs_name := "passwd"; fs_size := 1024; fs_mode := 420;
     fs_modTime := zeroTime; fs_sys := None |}.

Definition stat_stamped : fileStat :=
  {| fs_name := "passwd"; fs_size := 1024; fs_mode := 420;
     fs_modTime := mkTime 1 5; fs_sys := None |}.

(** *** The [DirEntry] snapshot *)

(** A value of interface type [fs.FileInfo]: a carrier together with its
    methods. *)
Record FileInfoValue : Type := packFileInfo {
  fi_carrier : Type;
  fi_methods : OsFileInfo fi_carrier;
  fi_value : fi_carrier
}.

(** The [fs.DirEntry] interface; [Info] answers with a file info or with
    the text of an error. *)
Class FsDirEntry (A : Type) : Type := {
  de_Name : A -> string;
  de_IsDir : A -> bool;
  de_Type : A -> FileMode;
  de_Info : A -> FileInfoValue + string
}.

Record dirEntry : Type := mkDirEntry {
  name : string;
  mode : FileMode;
  info : FileInfoValue
}.

Definition dirEntry_Name (en : dirEntry) : string := name en.
Definition dirEntry_IsDir (en : dirEntry) : bool := FileMode_IsDir (mode en).
Definition dirEntry_Type (en : dirEntry) : FileMode := mode en.
Definition dirEntry_Info (en : dirEntry) : FileInfoValue + string := inl (info en).

#[export] Instance dirEntry_FsDirEntry : FsDirEntry dirEntry := {
  de_Name := dirEntry_Name;
  de_IsDir := dirEntry_IsDir;
  de_Type := dirEntry_Type;
  de_Info := dirEntry_Info
}.

(** [DirEntry] returns the snapshot to be passed as RPC argument, or the
    error of [en.Info()]. *)
Definition DirEntry {A : Type} `{FsDirEntry A} (en : A) (now : Time)
  : dirEntry + string :=
  match de_Info en with
  | inr err => inr err
  | inl fi =>
      inl {| name := de_Name en;
             mode := de_Type en;
             info := packFileInfo fileInfo fileInfo_OsFileInfo
                       (@FileInfo (fi_carrier fi) (fi_methods fi)
                          (fi_value fi) now) |}
  end.

(** The file info held by a snapshot, as the [fileInfo] it is when the
    snapshot was built by [DirEntry]. *)
Definition snapshot_of (v : FileInfoValue) (now : Time) : fileInfo :=
  @FileInfo (fi_carrier v) (fi_methods v) (fi_value v) now.

(** A directory entry as the os package lists it: name, type bits and the
    result of the lstat behind [Info]. *)
Record osDirEntry : Type := mkOsDirEntry {
  ode_name : string;
  ode_typ : FileMode;
  ode_lstat : fileStat + string
}.

(** An entry whose lstat succeeds and one whose file is gone. *)
Definition entry_passwd : osDirEntry :=
  {| ode_name := "passwd"; ode_typ := 0; ode_lstat := inl stat_stamped |}.

Definition entry_gone : osDirEntry :=
  {| ode_name := "lock"; ode_typ := 0;
     ode_lstat := inr "lstat lock: no such file or directory" |}.

#[export] Instance osDirEntry_FsDirEntry : FsDirEntry osDirEntry := {
  de_Name := ode_name;
  de_IsDir := fun en => FileMode_IsDir (ode_typ en);
  de_Type := ode_typ;
  de_Info := fun en =>
    match ode_lstat en with
    | inl st => inl (packFileInfo fileStat fileStat_OsFileInfo st)
    | inr err => inr err
    end
}.

End Rpc.

(** ** starter/master_linux.go *)

Module Starter.

(** *** The start synchroniser *)

Inductive conn_error : Type :=
| io_EOF
| net_error (msg : string).

Definition conn_error_msg (e : conn_error) : string :=
  match e with
  | io_EOF => "EOF"
  | net_error m => m
  end.

(** One [conn.Read(data)] on the one byte buffer: the byte stored into
    [data[0]], if any, and the error returned. *)
Record read_outcome : Type := mkRead {
  rd_byte : option ascii;
  rd_err : option conn_error
}.

Record World : Type := mkWorld {
  NewFile_ok : bool;                 (* os.NewFile returned non-nil *)
  FileConn_err : option string;      (* net.FileConn *)
  conn_Read : nat -> read_outcome    (* the k-th Read on the connection *)
}.

(** The engine as seen by [startContainer]: whether [Operations]
    implements [PreStartProcess] and what the hooks return.  The hooks
    belong to the engine; what they do besides returning is not part of
    this model. *)
Record Engine : Type := mkEngine {
  PreStartProcess : option (option string);
  PostStartProcess : option string
}.

Inductive event : Type :=
| CommClose
| ConnRead
| ConnClose
| Debugf (msg : string)
| CallPreStartProcess
| CallPostStartProcess
| FatalSend (msg : string).

Definition store (data0 : ascii) (r : read_outcome) : ascii :=
  match rd_byte r with
  | Some b => b
  | None => data0
  end.

Definition is_f (b : ascii) : bool := Ascii.eqb b "f"%char.

(** The tail of [startContainer] from the comment "wait container process
    execution" on: the read numbered [k], with [data0] the content of the
    buffer before it. *)
Definition waitExecution (w : World) (e : Engine) (k : nat) (data0 : ascii)
  : list event :=
  let r := conn_Read w k in
  let data0 := store data0 r in
  let failed :=
    match rd_err r with
    | Some io_EOF => false
    | Some (net_error _) => true
    | None => false
    end in
  if failed || is_f data0 then
    [ConnRead; Debugf "stage 2 process reported an error, waiting status"]
  else
    ConnRead :: CallPostStartProcess ::
    match PostStartProcess e with
    | Some err => [FatalSend ("post start process failed: " ++ err)]
    | None => []
    end.

Definition startContainer (w : World) (e : Engine) : list event :=
  if negb (NewFile_ok w) then
    [FatalSend "bad master socket file descriptor"]
  else
    match FileConn_err w with
    | Some err =>
        [CommClose; FatalSend ("failed to create master connection: " ++ err)]
    | None =>
        (CommClose ::
        (let data0 := Ascii.zero in
         match PreStartProcess e with
         | Some pre =>
             let r := conn_Read w 0 in
             let data0 := store data0 r in
             match rd_err r with
             | Some io_EOF =>
                 [ConnRead;
                  Debugf "stage 2 process was interrupted, waiting status"]
             | Some err =>
                 [ConnRead;
                  FatalSend ("error while reading master socket data: "
                             ++ conn_error_msg err)]
             | None =>
                 if is_f data0 then
                   [ConnRead;
                    Debugf "stage 2 process reported an error, waiting status"]
                 else
                   ConnRead :: CallPreStartProcess ::
                   match pre with
                   | Some err =>
                       [FatalSend ("pre start process failed: " ++ err)]
                   | None => waitExecution w e 1 data0
                   end
             end
         | None => waitExecution w e 0 data0
         end) ++ [ConnClose])%list   (* defer conn.Close() *)
    end.

Definition reads_made (tr : list event) : nat :=
  List.length (filter (fun ev => match ev with ConnRead => true | _ => false end) tr).

Definition calls_PostStartProcess (tr : list event) : bool :=
  existsb (fun ev => match ev with CallPostStartProcess => true | _ => false end) tr.

Definition calls_PreStartProcess (tr : list event) : bool :=
  existsb (fun ev => match ev with CallPreStartProcess => true | _ => false end) tr.

(** Stage 2 sends [c], the engine has a [PreStartProcess] hook that
    succeeds, and the second read finds the socket closed. *)
Definition world_closed_after_c : World :=
  {| NewFile_ok := true;
     FileConn_err := None;
     conn_Read := fun k =>
       match k with
       | O => mkRead (Some "c"%char) None
       | _ => mkRead None (Some io_EOF)
       end |}.

(** Stage 2 sends [c] and then [f]. *)
Definition world_c_then_f : World :=
  {| NewFile_ok := true;
     FileConn_err := None;
     conn_Read := fun k =>
       match k with
       | O => mkRead (Some "c"%char) None
       | _ => mkRead (Some "f"%char) None
       end |}.

Definition engine_with_hook : Engine :=
  {| PreStartProcess := Some None; PostStartProcess := None |}.

(** *** Signals queued for the monitor *)

Definition Signal : Type := Z.

Definition SIGKILL : Signal := 9.
Definition SIGURG : Signal := 23.

(** A buffered [chan os.Signal]. *)
Record Chan : Type := mkChan {
  chan_cap : nat;
  chan_buf : list Signal     (* oldest first *)
}.

Definition make_chan (n : nat) : Chan := {| chan_cap := n; chan_buf := [] |}.

(** [signal.Notify(c, sig...)]: with no signal listed every incoming
    signal is relayed to [c]. *)
Record handler : Type := mkHandler {
  h_chan : Chan;
  h_sigs : list Signal
}.

Definition Notify (c : Chan) (sigs : list Signal) : handler :=
  {| h_chan := c; h_sigs := sigs |}.

Definition wants (h : handler) (s : Signal) : bool :=
  match h_sigs h with
  | [] => true
  | l => existsb (Z.eqb s) l
  end.

(** Package signal does not block sending to the channel: a signal that
    finds the buffer full is dropped. *)
Definition deliver (h : handler) (s : Signal) : handler :=
  if wants h s then
    if (List.length (chan_buf (h_chan h)) <? chan_cap (h_chan h))%nat then
      {| h_chan := {| chan_cap := chan_cap (h_chan h);
                      chan_buf := (chan_buf (h_chan h) ++ [s])%list |};
         h_sigs := h_sigs h |}
    else h
  else h.

(** [signals := make(chan os.Signal, 2); signal.Notify(signals)]. *)
Definition Master_signals : handler := Notify (make_chan 2) [].

Definition queued (h : handler) : list Signal := chan_buf (h_chan h).

(** The monitor takes the oldest queued signal off the channel. *)
Definition receive (h : handler) : handler :=
  {| h_chan := {| chan_cap := chan_cap (h_chan h);
                  chan_buf := tl (chan_buf (h_chan h)) |};
     h_sigs := h_sigs h |}.

Inductive chan_op : Type :=
| Incoming (s : Signal)
| Taken.

Definition chan_step (h : handler) (o : chan_op) : handler :=
  match o with
  | Incoming s => deliver h s
  | Taken => receive h
  end.

(** The handler after a history of arrivals and receives. *)
Definition after (ops : list chan_op) : handler :=
  fold_left chan_step ops Master_signals.

(** What holds of the handler throughout: the capacity and the empty
    signal list set by [Master], and the bound on the queue. *)
Definition handler_inv (h : handler) : Prop :=
  chan_cap (h_chan h) = 2%nat /\ h_sigs h = [] /\
  (List.length (queued h) <= 2)%nat.

(** *** Exit of the master *)

(** [syscall.WaitStatus], a [uint32]. *)
Definition WaitStatus : Type := Z.

Definition ws_mask : Z := 127.      (* 0x7F *)
Definition ws_exited : Z := 0.
Definition ws_shift : Z := 8.

Definition Exited (w : WaitStatus) : bool := Z.land w ws_mask =? ws_exited.

Definition Signaled (w : WaitStatus) : bool :=
  negb (Z.land w ws_mask =? ws_mask) && negb (Z.land w ws_mask =? ws_exited).

Definition ExitStatus (w : WaitStatus) : Z :=
  if negb (Exited w) then -1 else Z.land (Z.shiftr w ws_shift) 255.

Definition WaitStatus_Signal (w : WaitStatus) : Signal :=
  if negb (Signaled w) then -1 else Z.land w ws_mask.

(** A wait status as [wait4] fills it in. *)
Definition status_of_exit (code : Z) : WaitStatus := Z.shiftl (Z.land code 255) 8.
Definition status_of_signal (s : Signal) : WaitStatus := Z.land s 127.

Inductive action : Type :=
| CleanupContainer (fatal : option string) (status : WaitStatus)
| Errorf (msg : string)
| Fatalf (msg : string)          (* logs and terminates the process *)
| SignalReset
| Raise (s : Signal)
| Exit (code : Z).

(** What [Master] logs when [CleanupContainer] fails. *)
Definition cleanup_log (cleanup : option string) : list action :=
  match cleanup with
  | Some err => [Errorf ("container cleanup failed: " ++ err)]
  | None => []
  end.

(** [Master] from the receive on [fatalChan] on: [fatal] is the value
    received, [status] the variable the monitor task writes before it
    sends, [cleanup] what [CleanupContainer] returns.  [os.Exit] is reached
    when the raised signal did not interrupt the process. *)
Definition Master_finish (fatal : option string) (status : WaitStatus)
  (cleanup : option string) : list action :=
  CleanupContainer fatal status ::
  (cleanup_log cleanup ++
  match fatal with
  | Some msg => [Fatalf msg]
  | None =>
      SignalReset ::
      (if Signaled status then
         let s := WaitStatus_Signal status in
         let exitCode := 128 + s in
         [Raise s; Exit exitCode]
       else if Exited status then
         [Exit (ExitStatus status)]
       else
         [Exit 0])
  end)%list.

(** *** The container-create task *)

(** What [createContainer] meets: the RPC socket, the current
    configuration ([None] when [GetCurrentConfig] returns nil, else its
    [AllowMonitoring] flag), and the errors of [metric.New] and of the
    engine's [CreateContainer]. *)
Record CreateWorld : Type := mkCreateWorld {
  cw_NewFile_ok : bool;
  cw_FileConn_err : option string;
  cw_AllowMonitoring : option bool;
  cw_metric_New : option string;
  cw_CreateContainer : option string
}.

Inductive create_event : Type :=
| CrCommClose
| CrDebugf (msg : string)
| CrSetApptheusSocket
| CrCallCreateContainer
| CrFatalSend (msg : string)
| CrRpcConnClose.

Definition createContainer (w : CreateWorld) : list create_event :=
  if negb (cw_NewFile_ok w) then
    [CrFatalSend "bad RPC socket file descriptor"]
  else
    (CrCommClose ::
     match cw_FileConn_err w with
     | Some err =>
         [CrFatalSend ("failed to copy unix socket descriptor: " ++ err)]
     | None =>
         (match cw_AllowMonitoring w with
          | Some true =>
              match cw_metric_New w with
              | Some err =>
                  [CrDebugf ("Failed to establish connection to apptheus, err: "
                             ++ err)]
              | None => []
              end ++ [CrSetApptheusSocket]
          | _ => []
          end ++
          CrCallCreateContainer ::
          match cw_CreateContainer w with
          | Some err => [CrFatalSend ("container creation failed: " ++ err)]
          | None => [CrRpcConnClose]
          end)
     end)%list.

Definition is_CrFatalSend (ev : create_event) : bool :=
  match ev with CrFatalSend _ => true | _ => false end.

Definition is_CrCall (ev : create_event) : bool :=
  match ev with CrCallCreateContainer => true | _ => false end.

Definition is_CrRpcConnClose (ev : create_event) : bool :=
  match ev with CrRpcConnClose => true | _ => false end.

(** *** Observations on a run of [startContainer] and of [Master] *)

Definition is_FatalSend (ev : event) : bool :=
  match ev with FatalSend _ => true | _ => false end.

Definition is_CallPostStartProcess (ev : event) : bool :=
  match ev with CallPostStartProcess => true | _ => false end.

Definition is_Errorf (a : action) : bool :=
  match a with Errorf _ => true | _ => false end.

(** No [PostStartProcess] call comes before the [PreStartProcess] call
    ([seen] tells whether the latter was met). *)
Fixpoint hook_before_post (seen : bool) (tr : list event) : bool :=
  match tr with
  | [] => true
  | CallPreStartProcess :: tr' => hook_before_post true tr'
  | CallPostStartProcess :: tr' => seen && hook_before_post seen tr'
  | _ :: tr' => hook_before_post seen tr'
  end.

(** After an error was sent on the fatal channel only the deferred close
    of the connection follows. *)
Fixpoint quiet_after_fatal (tr : list event) : bool :=
  match tr with
  | [] => true
  | FatalSend _ :: tr' =>
      forallb (fun ev => match ev with ConnClose => true | _ => false end) tr'
  | _ :: tr' => quiet_after_fatal tr'
  end.

(** A first read that ends at once: the hook path with EOF. *)
Definition world_closed_at_once : World :=
  {| NewFile_ok := true;
     FileConn_err := None;
     conn_Read := fun _ => mkRead None (Some io_EOF) |}.

Definition engine_without_hook : Engine :=
  {| PreStartProcess := None; PostStartProcess := None |}.

End Starter.

(** ** package crypt *)

(** Calls to [sylog] are left out: they influence neither the results nor
    the calls recorded in the trace. *)

Module Crypt.

Import Go.

Definition byte : Type := Init.Byte.byte.

(** *** Errors *)

(** Error values.  The two pre-defined errors are compared by identity in
    the source; [New] stands for a value built by [errors.New] or
    [fmt.Errorf] in this package, [Foreign] for one handed back by another
    package (os, exec, lock, loop, bin, uuid, safecast). *)
Inductive error : Type :=
| ErrUnsupportedCryptsetupVersion
| ErrInvalidPassphrase
| New (msg : string)
| Foreign (msg : string).

Definition Error (e : error) : string :=
  match e with
  | ErrUnsupportedCryptsetupVersion =>
      "installed version of cryptsetup is not supported, >=2.0.0 required"
  | ErrInvalidPassphrase => "no key available with this passphrase"
  | New m => m
  | Foreign m => m
  end.

(** [%v] of an [error] that may be nil. *)
Definition fmt_v (e : option error) : string :=
  match e with
  | Some e => Error e
  | None => "<nil>"
  end.

(** [err == ErrUnsupportedCryptsetupVersion]. *)
Definition is_ErrUnsupportedCryptsetupVersion (e : option error) : bool :=
  match e with
  | Some ErrUnsupportedCryptsetupVersion => true
  | _ => false
  end.

(** A Go result pair [(value, error)]. *)
Inductive Result (A : Type) : Type :=
| Ok (a : A)
| Err (e : error).

Arguments Ok {A} a.
Arguments Err {A} e.

Definition is_Err {A : Type} (r : Result A) : bool :=
  match r with
  | Ok _ => false
  | Err _ => true
  end.

(** *** The environment *)

(** Answer of a collaborator: a value, or the text of its error. *)
Inductive reply (A : Type) : Type :=
| Fine (a : A)
| Failed (msg : string).

Arguments Fine {A} a.
Arguments Failed {A} msg.

Definition lift {A : Type} (r : reply A) : Result A :=
  match r with
  | Fine a => Ok a
  | Failed m => Err (Foreign m)
  end.

Definition lift_err (r : option string) : option error :=
  match r with
  | Some m => Some (Foreign m)
  | None => None
  end.

(** Answer of [os.Stat]: the size of the file, an error for which
    [errors.Is(err, os.ErrNotExist)] holds, or another error. *)
Inductive stat_reply : Type :=
| StatOk (size : Z)
| StatNotExist (msg : string)
| StatErr (msg : string).

(** [unix.LoopInfo64], the fields set by [createLoop]. *)
Record LoopInfo64 : Type := mkLoopInfo64 {
  Sizelimit : Z;
  Offset : Z;
  Flags : Z
}.

Definition LO_FLAGS_AUTOCLEAR : Z := 4.
Definition O_RDONLY : Z := 0.
Definition O_WRONLY : Z := 1.
Definition O_RDWR : Z := 2.

(** [exec.Cmd]: path, argument vector, bytes fed to standard input and
    the credential set in [SysProcAttr]. *)
Record Cmd : Type := mkCmd {
  Path : string;
  Args : list string;
  Stdin : list byte;
  Credential : option (Z * Z)
}.

Definition Command (name : string) (args : list string) : Cmd :=
  {| Path := name; Args := name :: args; Stdin := []; Credential := None |}.

Definition with_Stdin (c : Cmd) (input : list byte) : Cmd :=
  {| Path := Path c; Args := Args c; Stdin := input; Credential := Credential c |}.

Definition with_Credential (c : Cmd) (uid gid : Z) : Cmd :=
  {| Path := Path c; Args := Args c; Stdin := Stdin c;
     Credential := Some (uid, gid) |}.

(** What the world answers.  Calls that the package repeats (running a
    command, drawing a UUID, [os.Stat], [read], [write]) are answered by
    position: the first argument is the number of earlier calls of the
    same kind. *)
Record Env : Type := mkEnv {
  os_Stat : nat -> string -> stat_reply;
  os_CreateTemp : string -> string -> reply string;
  os_Truncate : string -> Z -> option string;
  loop_GetMaxLoopDevices : reply Z;
  loop_AttachFromPath : Z -> LoopInfo64 -> string -> Z -> reply Z;
  bin_FindBin : string -> reply string;
  fs_IsOwner : string -> Z -> bool;
  lock_Exclusive : string -> reply Z;
  exec_StdinPipe : Cmd -> option string;
  exec_CombinedOutput : nat -> Cmd -> string * option string;
  uuid_NewRandom : nat -> reply string;
  syscall_Open : string -> Z -> reply Z;
  syscall_Read : nat -> Z -> reply (list byte);
  syscall_Write : nat -> Z -> list byte -> reply Z
}.

Inductive event : Type :=
| EvStat (path : string)
| EvCreateTemp (name : string)
| EvTruncate (name : string) (size : Z)
| EvFileClose (name : string)
| EvLoopAttach (path : string) (info : LoopInfo64) (idx : Z)
| EvLock (path : string) (fd : Z)
| EvRelease (fd : Z)
| EvExec (cmd : Cmd)
| EvSleep (d : Z)
| EvOpen (path : string) (fd : Z)
| EvClose (fd : Z)
| EvRead (fd : Z) (data : list byte)
| EvWrite (fd : Z) (data : list byte).

(** Calls made so far, by kind, and the trace, newest event first. *)
Record State : Type := mkState {
  n_exec : nat;
  n_uuid : nat;
  n_stat : nat;
  n_read : nat;
  n_write : nat;
  trace : list event
}.

Definition init : State :=
  {| n_exec := 0; n_uuid := 0; n_stat := 0; n_read := 0; n_write := 0;
     trace := [] |}.

Definition record (ev : event) (s : State) : State :=
  {| n_exec := n_exec s; n_uuid := n_uuid s; n_stat := n_stat s;
     n_read := n_read s; n_write := n_write s; trace := ev :: trace s |}.

Definition tick_exec (s : State) : State :=
  {| n_exec := Datatypes.S (n_exec s); n_uuid := n_uuid s; n_stat := n_stat s;
     n_read := n_read s; n_write := n_write s; trace := trace s |}.

Definition tick_uuid (s : State) : State :=
  {| n_exec := n_exec s; n_uuid := Datatypes.S (n_uuid s); n_stat := n_stat s;
     n_read := n_read s; n_write := n_write s; trace := trace s |}.

Definition tick_stat (s : State) : State :=
  {| n_exec := n_exec s; n_uuid := n_uuid s; n_stat := Datatypes.S (n_stat s);
     n_read := n_read s; n_write := n_write s; trace := trace s |}.

Definition tick_read (s : State) : State :=
  {| n_exec := n_exec s; n_uuid := n_uuid s; n_stat := n_stat s;
     n_read := Datatypes.S (n_read s); n_write := n_write s; trace := trace s |}.

Definition tick_write (s : State) : State :=
  {| n_exec := n_exec s; n_uuid := n_uuid s; n_stat := n_stat s;
     n_read := n_read s; n_write := Datatypes.S (n_write s); trace := trace s |}.

(** *** A state monad with divergence *)

(** [None] is a run that has not returned within the fuel it was given. *)
Definition M (A : Type) : Type := State -> option (A * State).

Definition ret {A : Type} (a : A) : M A := fun s => Some (a, s).

Definition bind {A B : Type} (m : M A) (f : A -> M B) : M B :=
  fun s =>
    match m s with
    | Some (a, s') => f a s'
    | None => None
    end.

Definition spin {A : Type} : M A := fun _ => None.

Notation "x <- m ;; k" := (bind m (fun x => k))
  (at level 61, m at next level, right associativity).

Definition emit (ev : event) : M unit := fun s => Some (tt, record ev s).

(** [defer cleanup] placed before [body]. *)
Definition defer {A : Type} (cleanup : M unit) (body : M A) : M A :=
  a <- body ;; _ <- cleanup ;; ret a.

(** *** Observations on a trace *)

Definition is_exec (ev : event) : bool :=
  match ev with EvExec _ => true | _ => false end.

Definition is_attach (ev : event) : bool :=
  match ev with EvLoopAttach _ _ _ => true | _ => false end.

(** Commands run, oldest first. *)
Fixpoint commands (tr : list event) : list Cmd :=
  match tr with
  | [] => []
  | EvExec c :: tr' => (commands tr' ++ [c])%list
  | _ :: tr' => commands tr'
  end.

(** Loop devices attached, oldest first. *)
Fixpoint attached (tr : list event) : list Z :=
  match tr with
  | [] => []
  | EvLoopAttach _ _ idx :: tr' => (attached tr' ++ [idx])%list
  | _ :: tr' => attached tr'
  end.

(** Durations slept, oldest first, and their sum. *)
Fixpoint sleeps (tr : list event) : list Z :=
  match tr with
  | [] => []
  | EvSleep d :: tr' => (sleeps tr' ++ [d])%list
  | _ :: tr' => sleeps tr'
  end.

Definition total (l : list Z) : Z := fold_right Z.add 0 l.

(** Bytes written to [fd], in the order written. *)
Fixpoint written (fd : Z) (tr : list event) : list byte :=
  match tr with
  | [] => []
  | EvWrite fd' data :: tr' =>
      if fd' =? fd then (written fd tr' ++ data)%list else written fd tr'
  | _ :: tr' => written fd tr'
  end.

(** *** Durations ([time.Duration] counts nanoseconds) *)

Definition Millisecond : Z := 1000000.
Definition Second : Z := 1000000000.

(** [100 * (1 << attempt) * time.Millisecond]. *)
Definition delayNext (attempt : Z) : Z :=
  wrap64 (wrap64 (100 * shl64 1 attempt) * Millisecond).

(** [delayNext - 1]. *)
Definition delaySoFar (attempt : Z) : Z := wrap64 (delayNext attempt - 1).

(** U+0441 followed by "rypt device not available": the message of the
    error returned for an empty device name starts with a Cyrillic
    letter. *)
Definition crypt_device_not_available : string :=
  String (ascii_of_nat 209) (String (ascii_of_nat 129) "rypt device not available").

Definition buffer_cap : Z := 10240.

(** The error of the polling loop of [Open] when it gives up at
    [attempt]. *)
Definition errDidNotShowUp (nextCrypt : string) (attempt : Z) : error :=
  New ("device /dev/mapper/" ++ nextCrypt ++ " did not show up within "
       ++ itoa (Z.quot (delaySoFar attempt) Second) ++ " seconds").

Definition is_missing (r : stat_reply) : bool :=
  match r with
  | StatNotExist _ => true
  | _ => false
  end.

(** The back-off schedule: the wait numbered [k] lasts 100 * 2^k ms. *)
Definition backoff (k : nat) : Z := 100 * 2 ^ Z.of_nat k * Millisecond.

(** What the polling loop of [Open] makes of the answer of its last
    [os.Stat]. *)
Definition poll_verdict (nextCrypt : string) (r : stat_reply) : option error :=
  match r with
  | StatOk _ => None
  | StatErr m => Some (Foreign m)
  | StatNotExist _ => Some (errDidNotShowUp nextCrypt 8)
  end.

Definition mapper (nextCrypt : string) : string := "/dev/mapper/" ++ nextCrypt.

(** *** Calls into the world *)

Section Operations.

Variable env : Env.

Definition Stat (path : string) : M stat_reply :=
  fun s => Some (os_Stat env (n_stat s) path, record (EvStat path) (tick_stat s)).

Definition CreateTemp (dir pattern : string) : M (Result string) :=
  fun s =>
    match os_CreateTemp env dir pattern with
    | Fine name => Some (Ok name, record (EvCreateTemp name) s)
    | Failed m => Some (Err (Foreign m), s)
    end.

Definition Truncate (name : string) (size : Z) : M (option error) :=
  fun s =>
    match os_Truncate env name size with
    | None => Some (None, record (EvTruncate name size) s)
    | Some m => Some (Some (Foreign m), s)
    end.

Definition FileClose (name : string) : M unit := emit (EvFileClose name).

(** [safecast.ToUint64] of an [int64]: negative values are refused. *)
Definition safecast_ToUint64 (i : Z) : Result Z :=
  if i <? 0 then Err (Foreign "conversion issue: value is less than 0 (uint64)")
  else Ok i.

Definition GetMaxLoopDevices : M (Result Z) :=
  ret (lift (loop_GetMaxLoopDevices env)).

(** [loopDev.AttachFromPath(path, mode, &idx)]; a device that was
    attached is recorded. *)
Definition AttachFromPath (maxLoopDevices : Z) (info : LoopInfo64)
  (path : string) (mode : Z) : M (Result Z) :=
  fun s =>
    match loop_AttachFromPath env maxLoopDevices info path mode with
    | Fine idx => Some (Ok idx, record (EvLoopAttach path info idx) s)
    | Failed m => Some (Err (Foreign m), s)
    end.

Definition FindBin (name : string) : M (Result string) :=
  ret (lift (bin_FindBin env name)).

Definition IsOwner (path : string) (uid : Z) : M bool :=
  ret (fs_IsOwner env path uid).

Definition Exclusive (path : string) : M (Result Z) :=
  fun s =>
    match lock_Exclusive env path with
    | Fine fd => Some (Ok fd, record (EvLock path fd) s)
    | Failed m => Some (Err (Foreign m), s)
    end.

Definition Release (fd : Z) : M unit := emit (EvRelease fd).

Definition StdinPipe (cmd : Cmd) : M (option error) :=
  ret (lift_err (exec_StdinPipe env cmd)).

(** [cmd.CombinedOutput()]: the command is run whatever it answers. *)
Definition CombinedOutput (cmd : Cmd) : M (string * option error) :=
  fun s =>
    let r := exec_CombinedOutput env (n_exec s) cmd in
    Some ((fst r, lift_err (snd r)), record (EvExec cmd) (tick_exec s)).

Definition Run (cmd : Cmd) : M (option error) :=
  r <- CombinedOutput cmd ;; ret (snd r).

Definition NewRandom : M (Result string) :=
  fun s => Some (lift (uuid_NewRandom env (n_uuid s)), tick_uuid s).

Definition Sleep (d : Z) : M unit := emit (EvSleep d).

Definition sys_Open (path : string) (mode : Z) : M (Result Z) :=
  fun s =>
    match syscall_Open env path mode with
    | Fine fd => Some (Ok fd, record (EvOpen path fd) s)
    | Failed m => Some (Err (Foreign m), s)
    end.

Definition sys_Close (fd : Z) : M unit := emit (EvClose fd).

(** [syscall.Read(fd, buffer)] with [len(buffer) = n]: at most [n] bytes
    come back; the result is the part of the buffer that was filled. *)
Definition sys_Read (fd : Z) (n : Z) : M (Result (list byte)) :=
  fun s =>
    match syscall_Read env (n_read s) fd with
    | Fine data =>
        let data := firstn (Z.to_nat n) data in
        Some (Ok data, record (EvRead fd data) (tick_read s))
    | Failed m => Some (Err (Foreign m), tick_read s)
    end.

(** [syscall.Write(fd, data)]: the number of bytes taken. *)
Definition sys_Write (fd : Z) (data : list byte) : M (Result Z) :=
  fun s =>
    match syscall_Write env (n_write s) fd data with
    | Fine n =>
        Some (Ok n, record (EvWrite fd (firstn (Z.to_nat n) data)) (tick_write s))
    | Failed m => Some (Err (Foreign m), tick_write s)
    end.

(** *** The package *)

(** [createLoop] attaches the specified file to the next available loop
    device and sets the sizelimit on it. *)
Definition createLoop (path : string) (offset size : Z) : M (Result string) :=
  r <- GetMaxLoopDevices ;;
  match r with
  | Err e => ret (Err e)
  | Ok maxLoopDev =>
      let info := {| Sizelimit := size; Offset := offset;
                     Flags := LO_FLAGS_AUTOCLEAR |} in
      r <- AttachFromPath maxLoopDev info path O_RDWR ;;
      match r with
      | Err e =>
          ret (Err (New ("failed to attach image " ++ path ++ ": " ++ Error e)))
      | Ok idx => ret (Ok ("/dev/loop" ++ itoa idx))
      end
  end.

(** [CloseCryptDevice] closes the crypt device. *)
Definition CloseCryptDevice (path : string) : M (option error) :=
  r <- FindBin "cryptsetup" ;;
  match r with
  | Err e => ret (Some e)
  | Ok cryptsetup =>
      owner <- IsOwner cryptsetup 0 ;;
      if negb owner then
        ret (Some (New (cryptsetup ++ " must be owned by root")))
      else
        r <- Exclusive "/dev/mapper" ;;
        match r with
        | Err e => ret (Some e)
        | Ok fd =>
            defer (Release fd)
              (let cmd := with_Credential (Command cryptsetup ["close"; path]) 0 0 in
               err <- Run cmd ;;
               match err with
               | Some e => ret (Some e)
               | None => ret None
               end)
        end
  end.

Definition checkCryptsetupVersion (cryptsetup : string) : M (option error) :=
  if String.eqb cryptsetup "" then
    ret (Some (New "binary path not defined"))
  else
    let cmd := Command cryptsetup ["--version"] in
    r <- CombinedOutput cmd ;;
    match snd r with
    | Some e =>
        ret (Some (New ("failed to run cryptsetup --version: " ++ Error e)))
    | None =>
        if negb (Contains (fst r) "cryptsetup 2.") then
          ret (Some ErrUnsupportedCryptsetupVersion)
        else ret None
    end.

(** The inner loop of [copyDeviceContents]: [buffer[n:]] is written until
    [n] reaches [numRead]; the result is the new [writtenSoFar]. *)
Fixpoint writeBuffer (fuel : nat) (destFd : Z) (dest : string)
  (buffer : list byte) (numRead n writtenSoFar : Z) : M (Result Z) :=
  match fuel with
  | O => spin
  | Datatypes.S fuel' =>
      if n <? numRead then
        r <- sys_Write destFd (skipn (Z.to_nat n) buffer) ;;
        match r with
        | Err _ => ret (Err (New ("unable to write to destination " ++ dest)))
        | Ok numWritten =>
            writeBuffer fuel' destFd dest buffer numRead
              (wrap64 (n + numWritten)) (wrap64 (writtenSoFar + numWritten))
        end
      else ret (Ok writtenSoFar)
  end.

(** The outer loop of [copyDeviceContents]. *)
Fixpoint copyLoop (fuel : nat) (sourceFd destFd : Z) (source dest : string)
  (size writtenSoFar : Z) : M (option error) :=
  match fuel with
  | O => spin
  | Datatypes.S fuel' =>
      if writtenSoFar <? size then
        r <- sys_Read sourceFd buffer_cap ;;
        match r with
        | Err _ => ret (Some (New ("unable to read the file " ++ source)))
        | Ok buffer =>
            let numRead := Z.of_nat (List.length buffer) in
            r <- writeBuffer fuel' destFd dest buffer numRead 0 writtenSoFar ;;
            match r with
            | Err e => ret (Some e)
            | Ok writtenSoFar' =>
                copyLoop fuel' sourceFd destFd source dest size writtenSoFar'
            end
        end
      else ret None
  end.

(** [copyDeviceContents] copies the contents of source to destination. *)
Definition copyDeviceContents (fuel : nat) (source dest : string) (size : Z)
  : M (option error) :=
  r <- sys_Open source O_RDONLY ;;
  match r with
  | Err _ => ret (Some (New ("unable to open the file " ++ source)))
  | Ok sourceFd =>
      defer (sys_Close sourceFd)
        (r <- sys_Open dest O_WRONLY ;;
         match r with
         | Err _ => ret (Some (New ("unable to open the file: " ++ dest)))
         | Ok destFd =>
             defer (sys_Close destFd)
               (copyLoop fuel sourceFd destFd source dest size 0)
         end)
  end.

Definition getNextAvailableCryptDevice : M (Result string) :=
  r <- NewRandom ;;
  match r with
  | Err e => ret (Err (New ("id generation failed: " ++ Error e)))
  | Ok id => ret (Ok id)
  end.

(** The polling loop of [Open]: [for attempt := 0; true; attempt++]. *)
Fixpoint waitDevice (fuel : nat) (nextCrypt : string) (attempt : Z)
  : M (option error) :=
  match fuel with
  | O => spin
  | Datatypes.S fuel' =>
      r <- Stat (mapper nextCrypt) ;;
      match r with
      | StatOk _ => ret None
      | StatErr m => ret (Some (Foreign m))
      | StatNotExist _ =>
          if 25500 * Millisecond <=? delaySoFar attempt then
            ret (Some (errDidNotShowUp nextCrypt attempt))
          else
            _ <- Sleep (delayNext attempt) ;;
            waitDevice fuel' nextCrypt (attempt + 1)
      end
  end.

Definition open_Cmd (cryptsetup : string) (key : list byte)
  (path nextCrypt : string) : Cmd :=
  with_Stdin
    (with_Credential
       (Command cryptsetup
          ["open"; "--batch-mode"; "--type"; "luks2"; "--key-file"; "-";
           path; nextCrypt]) 0 0)
    key.

(** The retry loop of [Open], [for i := 0; i < maxRetries; i++], by the
    number of iterations left. *)
Fixpoint openLoop (fuel : nat) (left : nat) (cryptsetup : string)
  (key : list byte) (path : string) : M (Result string) :=
  match left with
  | O => ret (Err (New "unable to open crypt device"))
  | Datatypes.S left' =>
      r <- getNextAvailableCryptDevice ;;
      match r with
      | Err e => ret (Err (New ("while getting next device: " ++ Error e)))
      | Ok nextCrypt =>
          if String.eqb nextCrypt "" then
            ret (Err (New crypt_device_not_available))
          else
            r <- CombinedOutput (open_Cmd cryptsetup key path nextCrypt) ;;
            match snd r with
            | Some _ =>
                if Contains (fst r) "Device already exists" then
                  openLoop fuel left' cryptsetup key path
                else
                  err <- checkCryptsetupVersion cryptsetup ;;
                  if is_ErrUnsupportedCryptsetupVersion err then
                    ret (Err ErrUnsupportedCryptsetupVersion)
                  else if Contains (fst r) "No key available" then
                    ret (Err ErrInvalidPassphrase)
                  else
                    ret (Err (New ("cryptsetup open failed: " ++ fst r
                                   ++ ": " ++ fmt_v err)))
            | None =>
                werr <- waitDevice fuel nextCrypt 0 ;;
                match werr with
                | Some e => ret (Err e)
                | None => ret (Ok nextCrypt)
                end
            end
      end
  end.

(** [Open] opens the encrypted filesystem specified by path using the
    given key and returns the name assigned to it. *)
Definition Open (fuel : nat) (key : list byte) (path : string)
  : M (Result string) :=
  r <- Exclusive "/dev/mapper" ;;
  match r with
  | Err _ => ret (Err (New "unable to acquire lock on /dev/mapper"))
  | Ok fd =>
      defer (Release fd)
        (let maxRetries := 3%nat in
         r <- FindBin "cryptsetup" ;;
         match r with
         | Err e => ret (Err e)
         | Ok cryptsetup =>
             owner <- IsOwner cryptsetup 0 ;;
             if negb owner then
               ret (Err (New (cryptsetup ++ " must be owned by root")))
             else openLoop fuel maxRetries cryptsetup key path
         end)
  end.

Definition luksFormat_Cmd (cryptsetup : string) (key : list byte)
  (loop : string) : Cmd :=
  with_Stdin
    (Command cryptsetup
       ["luksFormat"; "--batch-mode"; "--type"; "luks2"; "--key-file"; "-"; loop])
    key.

(** [EncryptFilesystem] takes the path to a file containing a
    non-encrypted filesystem, encrypts it using the provided key, and
    returns a path to a file that can be later used as an encrypted
    volume with cryptsetup. *)
Definition EncryptFilesystem (fuel : nat) (path : string) (key : list byte)
  (tempdir : string) : M (Result string) :=
  f <- Stat path ;;
  match f with
  | StatNotExist _ | StatErr _ =>
      ret (Err (New ("failed getting size of " ++ path)))
  | StatOk fSize =>
  r <- CreateTemp tempdir "crypt-" ;;
  match r with
  | Err e => ret (Err e)
  | Ok cryptF =>
  defer (FileClose cryptF)
  (let devSize := wrap64 (fSize + 16 * 1024 * 1024) in
   err <- Truncate cryptF devSize ;;
   match err with
   | Some e => ret (Err e)
   | None =>
   _ <- FileClose cryptF ;;
   match safecast_ToUint64 devSize with
   | Err e => ret (Err e)
   | Ok uintDevSize =>
   r <- createLoop cryptF 0 uintDevSize ;;
   match r with
   | Err e => ret (Err e)
   | Ok loop =>
   r <- FindBin "cryptsetup" ;;
   match r with
   | Err e => ret (Err e)
   | Ok cryptsetup =>
   owner <- IsOwner cryptsetup 0 ;;
   if negb owner then
     ret (Err (New (cryptsetup ++ " must be owned by root")))
   else
   err <- StdinPipe (luksFormat_Cmd cryptsetup [] loop) ;;
   match err with
   | Some e => ret (Err e)
   | None =>
   r <- CombinedOutput (luksFormat_Cmd cryptsetup key loop) ;;
   match snd r with
   | Some _ =>
       err <- checkCryptsetupVersion cryptsetup ;;
       if is_ErrUnsupportedCryptsetupVersion err then
         ret (Err ErrUnsupportedCryptsetupVersion)
       else
         ret (Err (New ("unable to format crypt device: " ++ cryptF
                        ++ ": " ++ fst r)))
   | None =>
   r <- Open fuel key loop ;;
   match r with
   | Err e => ret (Err e)
   | Ok nextCrypt =>
   err <- copyDeviceContents fuel path (mapper nextCrypt) fSize ;;
   match err with
   | Some e => ret (Err e)
   | None =>
   err <- Run (Command cryptsetup ["close"; nextCrypt]) ;;
   match err with
   | Some e => ret (Err e)
   | None => ret (Ok cryptF)
   end end end end end end end end
   end)
  end end.

(** *** Describing what a source supplies *)

(** The bytes that read number [k] on [fd] puts into the buffer of
    [copyDeviceContents]. *)
Definition chunk (fd : Z) (k : nat) : list byte :=
  match syscall_Read env k fd with
  | Fine data => firstn (Z.to_nat buffer_cap) data
  | Failed _ => []
  end.

(** The bytes supplied by the [n] reads numbered [k0], [k0 + 1], ... *)
Definition supplied (fd : Z) (k0 n : nat) : list byte :=
  List.concat (map (chunk fd) (seq k0 n)).

(** How many bytes these reads supply. *)
Definition supplied_len (fd : Z) (k0 n : nat) : Z :=
  Z.of_nat (List.length (supplied fd k0 n)).

(** No read on [fd] fails. *)
Definition reads_succeed (fd : Z) : Prop :=
  forall k, exists data, syscall_Read env k fd = Fine data.

(** No write on [fd] fails, and each takes at least one of the bytes it
    is offered and no more than it is offered. *)
Definition writes_progress (fd : Z) : Prop :=
  forall k data, data <> [] ->
    exists n, syscall_Write env k fd data = Fine n /\
              0 < n <= Z.of_nat (List.length data).

(** *** Describing a run of the retry loop *)

(** The name drawn by the UUID source at its call number [u]. *)
Definition name_at (u : nat) : string :=
  match uuid_NewRandom env u with
  | Fine name => name
  | Failed _ => ""
  end.

(** The [cryptsetup open] command of the attempt that draws UUID number
    [u]. *)
Definition attempt_Cmd (cryptsetup : string) (key : list byte) (path : string)
  (u : nat) : Cmd :=
  open_Cmd cryptsetup key path (name_at u).

(** The attempt that draws UUID number [u] and runs command number [x]
    gets as far as cryptsetup, which fails with an output that satisfies
    [verdict]. *)
Definition fails_at (verdict : string -> bool) (cryptsetup : string)
  (key : list byte) (path : string) (u x : nat) : bool :=
  match uuid_NewRandom env u with
  | Fine name =>
      negb (String.eqb name "") &&
      match exec_CombinedOutput env x (open_Cmd cryptsetup key path name) with
      | (out, Some _) => verdict out
      | (_, None) => false
      end
  | Failed _ => false
  end.

(** It fails because the mapper name is taken. *)
Definition collides_at : string -> list byte -> string -> nat -> nat -> bool :=
  fails_at (fun out => Contains out "Device already exists").

(** It fails because no key slot accepts the passphrase. *)
Definition no_key_at : string -> list byte -> string -> nat -> nat -> bool :=
  fails_at (fun out => negb (Contains out "Device already exists")
                       && Contains out "No key available").

(** It gets as far as cryptsetup, which succeeds. *)
Definition opens_at (cryptsetup : string) (key : list byte) (path : string)
  (u x : nat) : bool :=
  match uuid_NewRandom env u with
  | Fine name =>
      negb (String.eqb name "") &&
      match exec_CombinedOutput env x (open_Cmd cryptsetup key path name) with
      | (_, Some _) => false
      | (_, None) => true
      end
  | Failed _ => false
  end.

(** [cryptsetup --version], run as command number [x], succeeds and
    reports a 2.x version. *)
Definition reports_2x_at (cryptsetup : string) (x : nat) : bool :=
  match exec_CombinedOutput env x (Command cryptsetup ["--version"]) with
  | (out, None) => Contains out "cryptsetup 2."
  | (_, Some _) => false
  end.

End Operations.

(** The state after an attempt of the retry loop that ran [c]. *)
Definition attempted (c : Cmd) (s : State) : State :=
  record (EvExec c) (tick_exec (tick_uuid s)).

(** *** What a run adds to the trace *)

(** From [s] to [s'] the trace grew by events that all satisfy [P]. *)
Definition grows (P : event -> bool) (s s' : State) : Prop :=
  exists evs, trace s' = (evs ++ trace s)%list /\ forallb P evs = true.

(** Whenever [m] returns, it has only added events that satisfy [P]. *)
Definition keeps {A : Type} (P : event -> bool) (m : M A) : Prop :=
  forall s r s', m s = Some (r, s') -> grows P s s'.

(** Running a command, looking at a file, sleeping. *)
Definition runs_or_looks (ev : event) : bool :=
  match ev with
  | EvExec _ | EvStat _ | EvSleep _ => true
  | _ => false
  end.

Definition reads_or_writes (ev : event) : bool :=
  match ev with
  | EvRead _ _ | EvWrite _ _ => true
  | _ => false
  end.

End Crypt.

(** ** Worlds used as examples *)

Module Scenario.

Import Go Crypt.

(** A host on which every call succeeds unless scripted otherwise: the
    ownership of the binary, the answers of the commands run, of
    [os.Stat], of the UUID source and of [read] are given. *)
Definition host (owner : bool)
  (run : nat -> Cmd -> string * option string)
  (stat : nat -> string -> stat_reply)
  (uuid : nat -> reply string)
  (read : nat -> Z -> reply (list byte)) : Env :=
  {| os_Stat := stat;
     os_CreateTemp := fun dir pattern => Fine (dir ++ "/" ++ pattern ++ "1");
     os_Truncate := fun _ _ => None;
     loop_GetMaxLoopDevices := Fine 256;
     loop_AttachFromPath := fun _ _ _ _ => Fine 0;
     bin_FindBin := fun name => Fine ("/usr/sbin/" ++ name);
     fs_IsOwner := fun _ _ => owner;
     lock_Exclusive := fun _ => Fine 3;
     exec_StdinPipe := fun _ => None;
     exec_CombinedOutput := run;
     uuid_NewRandom := uuid;
     syscall_Open := fun _ mode => Fine (if mode =? O_RDONLY then 4 else 5);
     syscall_Read := read;
     syscall_Write := fun _ _ data => Fine (Z.of_nat (List.length data)) |}.

Definition key : list byte := [Byte.x6b; Byte.x65; Byte.x79].

Definition uuids (k : nat) : reply string :=
  match k with
  | 0%nat => Fine "1b4e28ba-2fa1-41d2-883f-0016d3cca427"
  | 1%nat => Fine "6fa459ea-ee8a-4ca4-894e-db77e160355e"
  | _ => Fine "886313e1-3b8a-4372-9b90-0c9aee199e5d"
  end.

Definition stat_present (k : nat) (path : string) : stat_reply := StatOk 4096.

Definition no_data (k : nat) (fd : Z) : reply (list byte) := Fine [].

(** Every command succeeds silently. *)
Definition run_ok (k : nat) (c : Cmd) : string * option string := ("", None).

(** cryptsetup 1.7.5: [luksFormat --type luks2] is refused and
    [--version] prints the old version. *)
Definition run_old_cryptsetup (k : nat) (c : Cmd) : string * option string :=
  match Args c with
  | [_; "--version"] => ("cryptsetup 1.7.5", None)
  | _ => ("Usage: cryptsetup [OPTION...] <action> <action-specific>",
          Some "exit status 1")
  end.

Definition old_cryptsetup_host : Env :=
  host true run_old_cryptsetup stat_present uuids no_data.

(** The first two mapper names are taken, the third is free. *)
Definition run_collide_twice (k : nat) (c : Cmd) : string * option string :=
  match k with
  | 0%nat | 1%nat => ("Device already exists", Some "exit status 5")
  | _ => ("", None)
  end.

(** Every mapper name is taken. *)
Definition run_collide_always (k : nat) (c : Cmd) : string * option string :=
  ("Device already exists", Some "exit status 5").

(** cryptsetup 2.6.1 given a wrong key. *)
Definition run_wrong_key (k : nat) (c : Cmd) : string * option string :=
  match Args c with
  | [_; "--version"] => ("cryptsetup 2.6.1", None)
  | _ => ("No key available with this passphrase.", Some "exit status 2")
  end.

(** The mapper device never shows up. *)
Definition stat_missing (k : nat) (path : string) : stat_reply :=
  StatNotExist "no such file or directory".

(** The mapper device shows up at the fourth look. *)
Definition stat_late (k : nat) (path : string) : stat_reply :=
  if (k <? 3)%nat then StatNotExist "no such file or directory" else StatOk 0.

Definition collide_twice_host : Env :=
  host true run_collide_twice stat_late uuids no_data.

Definition collide_always_host : Env :=
  host true run_collide_always stat_present uuids no_data.

Definition wrong_key_host : Env :=
  host true run_wrong_key stat_present uuids no_data.

Definition no_device_host : Env :=
  host true run_ok stat_missing uuids no_data.

(** A source of four bytes, handed out two at a time. *)
Definition read_two_chunks (k : nat) (fd : Z) : reply (list byte) :=
  match k with
  | 0%nat => Fine [Byte.x01; Byte.x02]
  | 1%nat => Fine [Byte.x03; Byte.x04]
  | _ => Fine []
  end.

Definition four_byte_host : Env :=
  host true run_ok stat_present uuids read_two_chunks.

(** An image of three bytes on a host where everything works. *)
Definition stat_image (k : nat) (path : string) : stat_reply :=
  if String.eqb path "image.sqfs" then StatOk 3 else StatOk 0.

Definition image_host : Env :=
  host true run_ok stat_image uuids read_two_chunks.

(** The destination takes no byte and reports no error. *)
Definition stalled_host : Env :=
  {| os_Stat := os_Stat four_byte_host;
     os_CreateTemp := os_CreateTemp four_byte_host;
     os_Truncate := os_Truncate four_byte_host;
     loop_GetMaxLoopDevices := loop_GetMaxLoopDevices four_byte_host;
     loop_AttachFromPath := loop_AttachFromPath four_byte_host;
     bin_FindBin := bin_FindBin four_byte_host;
     fs_IsOwner := fs_IsOwner four_byte_host;
     lock_Exclusive := lock_Exclusive four_byte_host;
     exec_StdinPipe := exec_StdinPipe four_byte_host;
     exec_CombinedOutput := exec_CombinedOutput four_byte_host;
     uuid_NewRandom := uuid_NewRandom four_byte_host;
     syscall_Open := syscall_Open four_byte_host;
     syscall_Read := syscall_Read four_byte_host;
     syscall_Write := fun _ _ _ => Fine 0 |}.

(** cryptsetup 2.6.1 refusing the device for a reason of its own. *)
Definition run_not_luks (k : nat) (c : Cmd) : string * option string :=
  match Args c with
  | [_; "--version"] => ("cryptsetup 2.6.1", None)
  | _ => ("Device /dev/loop0 is not a valid LUKS device.", Some "exit status 1")
  end.

Definition not_luks_host : Env :=
  host true run_not_luks stat_present uuids no_data.

(** An image whose size leaves no room for the 16 MiB of the header. *)
Definition stat_huge (k : nat) (path : string) : stat_reply :=
  StatOk (int64_max - 1024).

Definition huge_image_host : Env :=
  host true run_ok stat_huge uuids no_data.

(** The binary is owned by an ordinary user. *)
Definition foreign_binary_host : Env :=
  host false run_ok stat_present uuids no_data.

End Scenario.

(** ** package user *)

Module User.

(** [User] represents a Unix user account information. *)
Record User : Type := mkUser {
  Name : string;
  UID : Z;
  GID : Z;
  Gecos : string;
  Dir : string;
  Shell : string
}.

(** A lookup answers with a user or with the text of an error. *)
Record Env : Type := mkEnv {
  lookupUnixUid : Z -> User + string;
  namespaces_HostUID : Z + string
}.

(** [GetPwUID] returns the [User] associated with user uid. *)
Definition GetPwUID (env : Env) (uid : Z) : User + string :=
  lookupUnixUid env uid.

(** [currentOriginalUser], an [atomic.Pointer[User]]: [None] is nil. *)
Definition Cell : Type := option User.

(** [CurrentOriginal] returns the original current user. *)
Definition CurrentOriginal (env : Env) (currentOriginalUser : Cell)
  : User + string :=
  match currentOriginalUser with
  | Some u => inl u
  | None =>
      match namespaces_HostUID env with
      | inr err => inr err
      | inl uid => GetPwUID env uid
      end
  end.

(** [SetCurrentOriginal] sets the current original user. *)
Definition SetCurrentOriginal (u : option User) (currentOriginalUser : Cell)
  : Cell := u.

Definition root : User :=
  {| Name := "root"; UID := 0; GID := 0; Gecos := "root"; Dir := "/root";
     Shell := "/bin/sh" |}.

(** Inside a user namespace whose mapping hides the host uid. *)
Definition unmapped_env : Env :=
  {| lookupUnixUid := fun _ => inr "user: unknown userid";
     namespaces_HostUID := inr "failed to parse uid_map" |}.

End User.

(** * Properties *)

Import Go.

Lemma wrap64_small z : - 2 ^ 63 <= z < 2 ^ 63 -> wrap64 z = z.
Proof.
  intros H. unfold wrap64.
  rewrite Z.mod_small by lia. lia.
Qed.

(** ** The file-info snapshot *)

Section RpcProperties.

Import Rpc.

Lemma fileInfo_ModTime_cases (fi : fileInfo) (now : Time) :
  ModTime fi now = if IsZero (T fi) then now else T fi.
Proof. reflexivity. Qed.

Lemma two_clock_readings : mkTime 63000000000 0 <> mkTime 63000000001 0.
Proof. discriminate. Qed.

(** C10.  The snapshot built by [FileInfo] reports the name, size and
    mode captured at construction.  [ModTime] gives back the captured
    time when that time is not the zero time; when it is the zero time
    every call returns the clock reading of that call, so two calls can
    differ. *)
Theorem FileInfo_snapshot_reports
  (A : Type) (I : OsFileInfo A) (src : A) (t0 : Time) :
  let fi := FileInfo src t0 in
  (Name fi = Name src /\ Size fi = Size src /\ Mode fi = Mode src
   /\ T fi = ModTime src t0) /\
  (IsZero (T fi) = false -> forall now, ModTime fi now = T fi) /\
  (IsZero (T fi) = true ->
     (forall now, ModTime fi now = now) /\
     exists now1 now2, ModTime fi now1 <> ModTime fi now2).
Proof.
  intros fi. split; [repeat split |]. split.
  - intros Hz now. rewrite fileInfo_ModTime_cases, Hz. reflexivity.
  - intros Hz. split.
    + intros now. rewrite fileInfo_ModTime_cases, Hz. reflexivity.
    + exists (mkTime 63000000000 0), (mkTime 63000000001 0).
      rewrite !fileInfo_ModTime_cases, Hz. exact two_clock_readings.
Qed.

Lemma FileInfo_snapshot_reports_witness :
  (forall now, ModTime (FileInfo stat_stamped zeroTime) now = mkTime 1 5) /\
  (forall now, ModTime (FileInfo stat_unstamped zeroTime) now = now).
Proof.
  split; intros now.
  - exact (proj1 (proj2 (FileInfo_snapshot_reports _ _ stat_stamped zeroTime))
             eq_refl now).
  - exact (proj1 (proj2 (proj2
             (FileInfo_snapshot_reports _ _ stat_unstamped zeroTime)) eq_refl)
             now).
Defined.

End RpcProperties.

(** ** The start synchroniser *)

Section StarterProperties.

Import Starter.

Lemma store_f (b : ascii) (r : read_outcome) :
  is_f b = false ->
  (is_f (store b r) = true <-> rd_byte r = Some "f"%char).
Proof.
  intros Hb. unfold store. destruct (rd_byte r) as [c |].
  - unfold is_f. rewrite Ascii.eqb_eq. split; congruence.
  - rewrite Hb. split; discriminate.
Qed.

(** C1, as stated, fails: with the first byte [c], a successful
    [PreStartProcess] and a second read that returns EOF, the master does
    call [PostStartProcess]. *)
Lemma startContainer_eof_after_hook_calls_PostStartProcess :
  NewFile_ok world_closed_after_c = true /\
  FileConn_err world_closed_after_c = None /\
  PreStartProcess engine_with_hook = Some None /\
  conn_Read world_closed_after_c 0 = mkRead (Some "c"%char) None /\
  conn_Read world_closed_after_c 1 = mkRead None (Some io_EOF) /\
  calls_PreStartProcess (startContainer world_closed_after_c engine_with_hook) = true /\
  calls_PostStartProcess (startContainer world_closed_after_c engine_with_hook) <> false.
Proof. repeat split; discriminate. Qed.

(** C1, amended.  After a first byte other than [f] and a successful
    [PreStartProcess], the master reads the socket once more.  It returns
    without calling [PostStartProcess] exactly when that read fails with
    an error other than EOF or delivers the byte [f]; on EOF, as on any
    other byte, it calls [PostStartProcess]. *)
Theorem startContainer_second_read (w : World) (e : Engine) (b : ascii) :
  NewFile_ok w = true ->
  FileConn_err w = None ->
  PreStartProcess e = Some None ->
  conn_Read w 0 = mkRead (Some b) None ->
  is_f b = false ->
  let tr := startContainer w e in
  calls_PreStartProcess tr = true /\
  reads_made tr = 2%nat /\
  (calls_PostStartProcess tr = false <->
     (exists m, rd_err (conn_Read w 1) = Some (net_error m)) \/
     rd_byte (conn_Read w 1) = Some "f"%char) /\
  (rd_err (conn_Read w 1) = Some io_EOF ->
   rd_byte (conn_Read w 1) = None ->
   calls_PostStartProcess tr = true).
Proof.
  intros Hfile Hconn Hpre Hr0 Hb tr.
  pose proof (store_f b (conn_Read w 1) Hb) as Hstore.
  subst tr. unfold startContainer, waitExecution.
  rewrite Hfile, Hconn, Hpre, Hr0. cbn [negb rd_err rd_byte store].
  rewrite Hb.
  destruct (rd_err (conn_Read w 1)) as [[| m] |] eqn:Herr;
    cbn [orb];
    destruct (is_f (store b (conn_Read w 1))) eqn:Hf;
    destruct (PostStartProcess e);
    cbn;
    (split; [reflexivity | split; [reflexivity | split; [split |]]]);
    try discriminate; try reflexivity; intros;
    try (right; apply Hstore; reflexivity);
    try (left; eexists; reflexivity);
    try (exfalso;
         match goal with
         | H : _ \/ _ |- _ =>
             destruct H as [[m' Hm] | Hbyte];
             [discriminate | apply Hstore in Hbyte; discriminate]
         end);
    try (exfalso;
         match goal with
         | H : rd_byte _ = None |- _ =>
             unfold store in Hf; rewrite H in Hf; congruence
         end).
Qed.

Lemma startContainer_second_read_witness :
  calls_PostStartProcess (startContainer world_c_then_f engine_with_hook) = false.
Proof.
  apply (proj1 (proj2 (proj2
    (startContainer_second_read world_c_then_f engine_with_hook "c"%char
       eq_refl eq_refl eq_refl eq_refl eq_refl)))).
  right. reflexivity.
Defined.

(** *** The signal channel *)

Lemma handler_inv_step (h : handler) (o : chan_op) :
  handler_inv h -> handler_inv (chan_step h o).
Proof.
  intros (Hcap & Hsigs & Hlen). destruct o as [s |]; cbn [chan_step].
  - unfold deliver, wants. rewrite Hsigs, Hcap.
    destruct (Nat.ltb_spec (List.length (chan_buf (h_chan h))) 2) as [Hlt | Hge].
    + unfold handler_inv, queued in *. cbn. rewrite length_app. cbn.
      split; [reflexivity | split; [reflexivity | lia]].
    + repeat split; assumption.
  - unfold handler_inv, receive, queued in *. cbn.
    repeat split; try assumption.
    destruct (chan_buf (h_chan h)); cbn in *; lia.
Qed.

Lemma handler_inv_fold (ops : list chan_op) (h : handler) :
  handler_inv h -> handler_inv (fold_left chan_step ops h).
Proof.
  revert h. induction ops as [| o ops IH]; intros h Hinv; cbn.
  - exact Hinv.
  - apply IH, handler_inv_step, Hinv.
Qed.

Lemma handler_inv_after (ops : list chan_op) : handler_inv (after ops).
Proof.
  apply handler_inv_fold. repeat split; cbn; lia.
Qed.

(** C7, as stated, fails: a SIGURG that reaches the handler installed by
    [Master] is placed into the channel. *)
Lemma Master_signals_queue_SIGURG :
  queued (deliver Master_signals SIGURG) = [SIGURG] /\
  In SIGURG (queued (after [Incoming SIGURG])).
Proof. split; [reflexivity | left; reflexivity]. Qed.

(** C7, amended.  The handler installed by [Master] relays every incoming
    signal, SIGURG included, into a channel of capacity 2: whatever
    arrived and was taken before, a signal that finds fewer than two
    signals waiting is appended to the queue, and one that finds the
    channel full is dropped. *)
Theorem Master_signals_relay_every_signal (ops : list chan_op) (s : Signal) :
  chan_cap (h_chan (after ops)) = 2%nat /\
  wants (after ops) s = true /\
  wants (after ops) SIGURG = true /\
  queued (deliver (after ops) s) =
    (if (List.length (queued (after ops)) <? 2)%nat
     then (queued (after ops) ++ [s])%list
     else queued (after ops)).
Proof.
  destruct (handler_inv_after ops) as (Hcap & Hsigs & Hlen).
  assert (Hw : forall x, wants (after ops) x = true).
  { intros x. unfold wants. rewrite Hsigs. reflexivity. }
  repeat split; try apply Hw; try assumption.
  unfold deliver. rewrite Hw, Hcap. unfold queued.
  destruct (List.length (chan_buf (h_chan (after ops))) <? 2)%nat; reflexivity.
Qed.

(** *** Exit of the master *)

Lemma Exited_not_Signaled (status : WaitStatus) :
  Exited status = true -> Signaled status = false.
Proof.
  unfold Exited, Signaled. intros H. rewrite H.
  apply andb_false_r.
Qed.

(** The encoding of a wait status agrees with the accessors: a child that
    exits with [code] is reported as exited with that code, one killed by
    signal [s] as signaled by [s]. *)
Lemma status_of_exit_ExitStatus (code : Z) :
  0 <= code <= 255 ->
  Exited (status_of_exit code) = true /\
  ExitStatus (status_of_exit code) = code.
Proof.
  intros Hc.
  assert (Hland : Z.land code 255 = code).
  { change 255 with (Z.ones 8). rewrite Z.land_ones by lia.
    apply Z.mod_small. change (2 ^ 8) with 256. lia. }
  assert (Hex : Exited (status_of_exit code) = true).
  { unfold Exited, status_of_exit, ws_mask, ws_exited.
    rewrite Hland. change 127 with (Z.ones 7).
    rewrite Z.land_ones, Z.shiftl_mul_pow2 by lia.
    change (2 ^ 8) with (2 * 2 ^ 7). rewrite Z.mul_assoc, Z.mod_mul by lia.
    reflexivity. }
  split; [exact Hex |].
  unfold ExitStatus. rewrite Hex. cbn [negb].
  unfold status_of_exit, ws_shift. rewrite Hland.
  rewrite Z.shiftr_shiftl_l by lia. rewrite Z.sub_diag, Z.shiftl_0_r.
  exact Hland.
Qed.

Lemma status_of_signal_Signal (s : Signal) :
  1 <= s <= 126 ->
  Signaled (status_of_signal s) = true /\
  WaitStatus_Signal (status_of_signal s) = s.
Proof.
  intros Hs.
  assert (Hland : Z.land s 127 = s).
  { change 127 with (Z.ones 7). rewrite Z.land_ones by lia.
    apply Z.mod_small. change (2 ^ 7) with 128. lia. }
  assert (Hsig : Signaled (status_of_signal s) = true).
  { unfold Signaled, status_of_signal, ws_mask, ws_exited.
    rewrite !Hland.
    destruct (Z.eqb_spec s 127); [lia |].
    destruct (Z.eqb_spec s 0); [lia | reflexivity]. }
  split; [exact Hsig |].
  unfold WaitStatus_Signal. rewrite Hsig. cbn [negb].
  unfold status_of_signal, ws_mask. rewrite !Hland. reflexivity.
Qed.

(** C8.  With no fatal error delivered: when the monitor reports that the
    child was terminated by signal [s], [Master] resets the signal
    handlers, raises [s] on itself and exits with code [128 + s]; when it
    reports a normal exit, [Master] resets the handlers and exits with the
    child's exit status. *)
Theorem Master_exit_code (status : WaitStatus) (cleanup : option string) :
  (forall s, Signaled status = true -> WaitStatus_Signal status = s ->
     Master_finish None status cleanup =
       (CleanupContainer None status :: cleanup_log cleanup
        ++ [SignalReset; Raise s; Exit (128 + s)])%list) /\
  (Exited status = true ->
     Master_finish None status cleanup =
       (CleanupContainer None status :: cleanup_log cleanup
        ++ [SignalReset; Exit (ExitStatus status)])%list) /\
  (Exited status = true -> ExitStatus status = 0 ->
     last (Master_finish None status cleanup) SignalReset = Exit 0).
Proof.
  assert (Hexit : Exited status = true ->
     Master_finish None status cleanup =
       (CleanupContainer None status :: cleanup_log cleanup
        ++ [SignalReset; Exit (ExitStatus status)])%list).
  { intros Hex. unfold Master_finish, cleanup_log.
    rewrite (Exited_not_Signaled status Hex), Hex. reflexivity. }
  split; [| split].
  - intros s Hsig Hs. unfold Master_finish, cleanup_log.
    rewrite Hsig, Hs. reflexivity.
  - exact Hexit.
  - intros Hex H0. rewrite (Hexit Hex), H0.
    destruct cleanup; reflexivity.
Qed.

Lemma Master_exit_code_witness :
  Master_finish None (status_of_signal SIGKILL) None =
    [CleanupContainer None (status_of_signal SIGKILL);
     SignalReset; Raise 9; Exit 137] /\
  Master_finish None (status_of_exit 3) None =
    [CleanupContainer None (status_of_exit 3); SignalReset; Exit 3] /\
  last (Master_finish None (status_of_exit 0) None) SignalReset = Exit 0.
Proof.
  split; [| split].
  - exact (proj1 (Master_exit_code (status_of_signal SIGKILL) None)
             9 eq_refl eq_refl).
  - exact (proj1 (proj2 (Master_exit_code (status_of_exit 3) None)) eq_refl).
  - exact (proj2 (proj2 (Master_exit_code (status_of_exit 0) None))
             eq_refl eq_refl).
Defined.

End StarterProperties.

(** ** The crypt layer *)

Import Crypt.

Ltac unfold_calls :=
  unfold Stat, CreateTemp, Truncate, FileClose, GetMaxLoopDevices,
    AttachFromPath, FindBin, IsOwner, Exclusive, Release, StdinPipe,
    CombinedOutput, Run, NewRandom, Sleep, sys_Open, sys_Close, emit,
    defer, bind, ret, lift.

Ltac crypt_simpl :=
  cbn -[luksFormat_Cmd open_Cmd Command wrap64 itoa append Contains mapper
        String.eqb delayNext delaySoFar errDidNotShowUp Z.add Z.mul Z.ltb
        Z.leb Nat.add skipn firstn].

Ltac poll_done :=
  eexists; split; [lia |]; split; [reflexivity |];
  cbn; rewrite app_nil_r;
  split; [reflexivity |]; split; [reflexivity |]; split; [reflexivity |];
  split; [intros; lia | try discriminate; trivial].

Section CryptProperties.

Variable env : Env.

(** *** The binary must be owned by root *)

Lemma Open_not_owner (cryptsetup : string) fuel key path s :
  bin_FindBin env "cryptsetup" = Fine cryptsetup ->
  fs_IsOwner env cryptsetup 0 = false ->
  exists e s',
    Open env fuel key path s = Some (Err e, s') /\
    n_exec s' = n_exec s /\ commands (trace s') = commands (trace s).
Proof.
  intros Hbin Hown. unfold Open. unfold_calls.
  destruct (lock_Exclusive env "/dev/mapper") as [fd | m].
  - rewrite Hbin, Hown. cbn. eauto.
  - eauto.
Qed.

Lemma CloseCryptDevice_not_owner (cryptsetup : string) path s :
  bin_FindBin env "cryptsetup" = Fine cryptsetup ->
  fs_IsOwner env cryptsetup 0 = false ->
  exists e s',
    CloseCryptDevice env path s = Some (Some e, s') /\
    n_exec s' = n_exec s /\ commands (trace s') = commands (trace s).
Proof.
  intros Hbin Hown. unfold CloseCryptDevice. unfold_calls.
  rewrite Hbin, Hown. cbn. eauto.
Qed.

Lemma EncryptFilesystem_not_owner (cryptsetup : string) fuel path key tempdir s :
  bin_FindBin env "cryptsetup" = Fine cryptsetup ->
  fs_IsOwner env cryptsetup 0 = false ->
  exists e s',
    EncryptFilesystem env fuel path key tempdir s = Some (Err e, s') /\
    n_exec s' = n_exec s /\ commands (trace s') = commands (trace s).
Proof.
  intros Hbin Hown. unfold EncryptFilesystem, createLoop, safecast_ToUint64.
  unfold_calls.
  destruct (os_Stat env (n_stat s) path); [| cbn; eauto ..].
  destruct (os_CreateTemp env tempdir "crypt-") as [cryptF | m]; [| cbn; eauto].
  destruct (os_Truncate env cryptF _); [cbn; eauto |].
  destruct (_ <? 0); [cbn; eauto |].
  destruct (loop_GetMaxLoopDevices env) as [maxLoopDev | m]; [| cbn; eauto].
  destruct (loop_AttachFromPath env maxLoopDev _ cryptF O_RDWR) as [idx | m];
    [| cbn; eauto].
  rewrite Hbin, Hown. cbn. eauto.
Qed.

(** C6.  When the cryptsetup binary that was located is not owned by uid
    0, each of [Open], [CloseCryptDevice] and [EncryptFilesystem] returns
    an error, and it does so without having run any command. *)
Theorem not_owned_by_root_fails_before_cryptsetup (cryptsetup : string) :
  bin_FindBin env "cryptsetup" = Fine cryptsetup ->
  fs_IsOwner env cryptsetup 0 = false ->
  (forall fuel key path s, exists e s',
     Open env fuel key path s = Some (Err e, s') /\
     n_exec s' = n_exec s /\ commands (trace s') = commands (trace s)) /\
  (forall path s, exists e s',
     CloseCryptDevice env path s = Some (Some e, s') /\
     n_exec s' = n_exec s /\ commands (trace s') = commands (trace s)) /\
  (forall fuel path key tempdir s, exists e s',
     EncryptFilesystem env fuel path key tempdir s = Some (Err e, s') /\
     n_exec s' = n_exec s /\ commands (trace s') = commands (trace s)).
Proof.
  intros Hbin Hown. split; [| split]; intros.
  - eapply Open_not_owner; eassumption.
  - eapply CloseCryptDevice_not_owner; eassumption.
  - eapply EncryptFilesystem_not_owner; eassumption.
Qed.

(** *** Polling for the mapper device *)

Example delayNext_first : delayNext 0 = 100 * Millisecond.
Proof. reflexivity. Qed.

Example delaySoFar_last : delaySoFar 8 = 25600 * Millisecond - 1.
Proof. reflexivity. Qed.

Example backoff_sum : total (map backoff (seq 0 8)) = 25500 * Millisecond.
Proof. reflexivity. Qed.

Example errDidNotShowUp_text :
  Error (errDidNotShowUp "luks" 8)
  = "device /dev/mapper/luks did not show up within 25 seconds".
Proof. reflexivity. Qed.

Example Contains_version :
  Contains "cryptsetup 2.6.1 flags: UDEV" "cryptsetup 2." = true /\
  Contains "cryptsetup 1.7.5" "cryptsetup 2." = false.
Proof. split; reflexivity. Qed.

Lemma backoff_schedule (a : nat) :
  (a <= 8)%nat ->
  delayNext (Z.of_nat a) = backoff a /\
  ((25500 * Millisecond <=? delaySoFar (Z.of_nat a)) = true <-> a = 8%nat).
Proof.
  intros Ha.
  do 9 (destruct a as [| a];
        [vm_compute; split; [reflexivity | split; congruence] |]).
  lia.
Qed.

Lemma waitDevice_spec (name : string) (j : nat) :
  forall (a fuel : nat) (s : State),
    (a + j = 8)%nat -> (j < fuel)%nat ->
    exists m s',
      (m <= j)%nat /\
      waitDevice env fuel name (Z.of_nat a) s
        = Some (poll_verdict name (os_Stat env (n_stat s + m) (mapper name)), s') /\
      sleeps (trace s') = (sleeps (trace s) ++ map backoff (seq a m))%list /\
      commands (trace s') = commands (trace s) /\
      n_uuid s' = n_uuid s /\
      (forall k, (k < m)%nat ->
         is_missing (os_Stat env (n_stat s + k) (mapper name)) = true) /\
      (is_missing (os_Stat env (n_stat s + m) (mapper name)) = true -> m = j).
Proof.
  induction j as [| j IH]; intros a fuel s Ha Hfuel;
    (destruct fuel as [| fuel]; [lia |]);
    destruct (backoff_schedule a ltac:(lia)) as [Hdelay Hcap];
    cbn [waitDevice]; unfold_calls.
  - exists 0%nat. rewrite !Nat.add_0_r.
    destruct (os_Stat env (n_stat s) (mapper name)) eqn:Hstat;
      [| replace a with 8%nat by lia; change (Z.of_nat 8) with 8;
         change (25500 * Millisecond <=? delaySoFar 8) with true |];
      poll_done.
  - destruct (os_Stat env (n_stat s) (mapper name)) eqn:Hstat.
    + exists 0%nat. rewrite !Nat.add_0_r, Hstat. poll_done.
    + destruct (25500 * Millisecond <=? delaySoFar (Z.of_nat a)) eqn:Hgive.
      { pose proof (proj1 Hcap eq_refl). lia. }
      rewrite Hdelay.
      replace (Z.of_nat a + 1) with (Z.of_nat (Datatypes.S a)) by lia.
      destruct (IH (Datatypes.S a) fuel
                  (record (EvSleep (backoff a))
                     (record (EvStat (mapper name)) (tick_stat s)))
                  ltac:(lia) ltac:(lia))
        as (m & s' & Hm & Hrun & Hsleeps & Hcmds & Huuid & Hmiss & Hlast).
      cbn [n_stat n_uuid record tick_stat] in Hrun, Huuid, Hmiss, Hlast.
      exists (Datatypes.S m), s'.
      rewrite Nat.add_succ_r.
      split; [lia |]. split; [exact Hrun |].
      split; [rewrite Hsleeps; cbn; rewrite <- app_assoc; reflexivity |].
      split; [rewrite Hcmds; reflexivity |].
      split; [exact Huuid |].
      split.
      * intros [| k] Hk.
        -- rewrite Nat.add_0_r, Hstat. reflexivity.
        -- rewrite Nat.add_succ_r. apply Hmiss. lia.
      * intros H. f_equal. apply Hlast, H.
    + exists 0%nat. rewrite !Nat.add_0_r, Hstat. poll_done.
Qed.

(** *** The retry loop of [Open] *)

Lemma Open_enters_loop fuel key path s fd cryptsetup :
  lock_Exclusive env "/dev/mapper" = Fine fd ->
  bin_FindBin env "cryptsetup" = Fine cryptsetup ->
  fs_IsOwner env cryptsetup 0 = true ->
  Open env fuel key path s =
    match openLoop env fuel 3 cryptsetup key path
            (record (EvLock "/dev/mapper" fd) s) with
    | Some (r, s') => Some (r, record (EvRelease fd) s')
    | None => None
    end.
Proof.
  intros Hlock Hbin Hown. unfold Open. unfold_calls.
  rewrite Hlock, Hbin, Hown. reflexivity.
Qed.

Lemma openLoop_collision fuel left cryptsetup key path s :
  collides_at env cryptsetup key path (n_uuid s) (n_exec s) = true ->
  openLoop env fuel (Datatypes.S left) cryptsetup key path s =
  openLoop env fuel left cryptsetup key path
    (attempted (attempt_Cmd env cryptsetup key path (n_uuid s)) s).
Proof.
  unfold collides_at, fails_at, attempt_Cmd, name_at. intros H.
  cbn [openLoop]. unfold getNextAvailableCryptDevice. unfold_calls.
  destruct (uuid_NewRandom env (n_uuid s)) as [name | m]; [| discriminate].
  apply andb_prop in H. destruct H as [Hname H].
  apply negb_true_iff in Hname. rewrite Hname. crypt_simpl.
  destruct (exec_CombinedOutput env (n_exec s)
              (open_Cmd cryptsetup key path name)) as [out [e |]];
    [| discriminate].
  crypt_simpl. rewrite H. reflexivity.
Qed.

Lemma openLoop_opened fuel left cryptsetup key path s :
  opens_at env cryptsetup key path (n_uuid s) (n_exec s) = true ->
  openLoop env fuel (Datatypes.S left) cryptsetup key path s =
  match waitDevice env fuel (name_at env (n_uuid s)) 0
          (attempted (attempt_Cmd env cryptsetup key path (n_uuid s)) s) with
  | Some (werr, s') =>
      Some (match werr with
            | Some e => Err e
            | None => Ok (name_at env (n_uuid s))
            end, s')
  | None => None
  end.
Proof.
  unfold opens_at, attempt_Cmd, name_at. intros H.
  cbn [openLoop]. unfold getNextAvailableCryptDevice. unfold_calls.
  destruct (uuid_NewRandom env (n_uuid s)) as [name | m]; [| discriminate].
  apply andb_prop in H. destruct H as [Hname H].
  apply negb_true_iff in Hname. rewrite Hname. crypt_simpl.
  destruct (exec_CombinedOutput env (n_exec s)
              (open_Cmd cryptsetup key path name)) as [out [e |]];
    [discriminate |].
  crypt_simpl. unfold attempted.
  destruct (waitDevice env fuel name 0 _) as [[[e |] s'] |]; reflexivity.
Qed.

Lemma openLoop_no_key fuel left cryptsetup key path s :
  no_key_at env cryptsetup key path (n_uuid s) (n_exec s) = true ->
  reports_2x_at env cryptsetup (Datatypes.S (n_exec s)) = true ->
  exists s',
    openLoop env fuel (Datatypes.S left) cryptsetup key path s
      = Some (Err ErrInvalidPassphrase, s').
Proof.
  unfold no_key_at, fails_at, reports_2x_at. intros H Hversion.
  cbn [openLoop].
  unfold getNextAvailableCryptDevice, checkCryptsetupVersion. unfold_calls.
  destruct (uuid_NewRandom env (n_uuid s)) as [name | m]; [| discriminate].
  apply andb_prop in H. destruct H as [Hname H].
  apply negb_true_iff in Hname. rewrite Hname. crypt_simpl.
  destruct (exec_CombinedOutput env (n_exec s)
              (open_Cmd cryptsetup key path name)) as [out [e |]];
    [| discriminate].
  apply andb_prop in H. destruct H as [Hexists Hkey].
  apply negb_true_iff in Hexists.
  crypt_simpl. rewrite Hexists.
  destruct (String.eqb cryptsetup ""); crypt_simpl.
  - rewrite Hkey. eauto.
  - destruct (exec_CombinedOutput env (Datatypes.S (n_exec s))
                (Command cryptsetup ["--version"])) as [vout [ve |]];
      [discriminate |].
    crypt_simpl. rewrite Hversion. crypt_simpl. rewrite Hkey. eauto.
Qed.

(** The state reached from [s] by [j] attempts in a row that collide. *)
Lemma openLoop_collisions fuel cryptsetup key path (j : nat) :
  forall (left : nat) (s : State),
    (forall i, (i < j)%nat ->
       collides_at env cryptsetup key path (n_uuid s + i) (n_exec s + i) = true) ->
    exists s',
      openLoop env fuel (j + left) cryptsetup key path s
        = openLoop env fuel left cryptsetup key path s' /\
      n_uuid s' = (n_uuid s + j)%nat /\
      n_exec s' = (n_exec s + j)%nat /\
      n_stat s' = n_stat s /\
      sleeps (trace s') = sleeps (trace s) /\
      commands (trace s') =
        (commands (trace s)
         ++ map (fun i => attempt_Cmd env cryptsetup key path (n_uuid s + i))
              (seq 0 j))%list.
Proof.
  induction j as [| j IH]; intros left s Hcoll.
  - exists s. cbn. rewrite !Nat.add_0_r, app_nil_r. repeat split.
  - pose proof (Hcoll 0%nat ltac:(lia)) as H0.
    rewrite !Nat.add_0_r in H0.
    destruct (IH left
                (attempted (attempt_Cmd env cryptsetup key path (n_uuid s)) s))
      as (s' & Hrun & Hu & Hx & Hst & Hsl & Hcmds).
    { intros i Hi. cbn. rewrite <- !Nat.add_succ_r. apply Hcoll. lia. }
    exists s'. cbn [Nat.add]. rewrite (openLoop_collision _ _ _ _ _ _ H0).
    cbn in Hu, Hx, Hst, Hsl, Hcmds.
    split; [exact Hrun |].
    split; [lia |]. split; [lia |]. split; [exact Hst |].
    split; [exact Hsl |].
    rewrite Hcmds, <- app_assoc. cbn [app seq map]. rewrite Nat.add_0_r.
    f_equal. f_equal. rewrite <- seq_shift, map_map.
    apply map_ext. intros i. rewrite Nat.add_succ_r. reflexivity.
Qed.

Lemma backoff_total (n : nat) :
  (n <= 8)%nat ->
  (25500 * Millisecond <= total (map backoff (seq 0 n)) <-> n = 8%nat).
Proof.
  intros Hn.
  do 9 (destruct n as [| n];
        [vm_compute; split; [try (intros H; exfalso; apply H; reflexivity)
                            | try discriminate]; reflexivity
        |]).
  lia.
Qed.

(** C3.  With the lock taken and a root-owned binary located: when the
    first two [cryptsetup open] invocations fail with "Device already
    exists", [Open] makes a third attempt, each attempt under the next name
    drawn from the UUID source.  If the third collides as well, [Open]
    gives up with the error "unable to open crypt device" after exactly
    these three invocations; if the third succeeds and the mapper device
    shows up, [Open] returns the name of the third attempt. *)
Theorem Open_retries_on_collision fuel key path s fd cryptsetup :
  lock_Exclusive env "/dev/mapper" = Fine fd ->
  bin_FindBin env "cryptsetup" = Fine cryptsetup ->
  fs_IsOwner env cryptsetup 0 = true ->
  collides_at env cryptsetup key path (n_uuid s) (n_exec s) = true ->
  collides_at env cryptsetup key path (n_uuid s + 1) (n_exec s + 1) = true ->
  let attempts :=
    map (fun i => attempt_Cmd env cryptsetup key path (n_uuid s + i)) (seq 0 3) in
  let third := name_at env (n_uuid s + 2) in
  (collides_at env cryptsetup key path (n_uuid s + 2) (n_exec s + 2) = true ->
   exists s',
     Open env fuel key path s
       = Some (Err (New "unable to open crypt device"), s') /\
     commands (trace s') = (commands (trace s) ++ attempts)%list /\
     n_uuid s' = (n_uuid s + 3)%nat) /\
  (opens_at env cryptsetup key path (n_uuid s + 2) (n_exec s + 2) = true ->
   forall m size,
     (m <= 8)%nat -> (8 < fuel)%nat ->
     (forall k, (k < m)%nat ->
        is_missing (os_Stat env (n_stat s + k) (mapper third)) = true) ->
     os_Stat env (n_stat s + m) (mapper third) = StatOk size ->
     exists s',
       Open env fuel key path s = Some (Ok third, s') /\
       commands (trace s') = (commands (trace s) ++ attempts)%list /\
       n_uuid s' = (n_uuid s + 3)%nat).
Proof.
  intros Hlock Hbin Hown H0 H1 attempts third.
  rewrite (Open_enters_loop fuel key path s fd cryptsetup Hlock Hbin Hown).
  set (s0 := record (EvLock "/dev/mapper" fd) s).
  assert (Htwo : forall i, (i < 2)%nat ->
            collides_at env cryptsetup key path (n_uuid s0 + i) (n_exec s0 + i)
              = true).
  { intros [| [| i]] Hi; cbn [s0 record n_uuid n_exec];
      [rewrite !Nat.add_0_r; exact H0 | exact H1 | lia]. }
  split.
  - intros H2.
    destruct (openLoop_collisions fuel cryptsetup key path 3 0 s0)
      as (s' & Hrun & Hu & Hx & Hst & Hsl & Hcmds).
    { intros [| [| [| i]]] Hi; cbn [s0 record n_uuid n_exec];
        [rewrite !Nat.add_0_r; exact H0 | exact H1 | exact H2 | lia]. }
    cbn [Nat.add] in Hrun. rewrite Hrun. cbn [openLoop]. unfold ret.
    eexists. split; [reflexivity |].
    cbn [trace record commands n_uuid]. rewrite Hcmds, Hu.
    split; reflexivity.
  - intros H2 m size Hm Hfuel Hmiss Hshow.
    destruct (openLoop_collisions fuel cryptsetup key path 2 1 s0 Htwo)
      as (s1 & Hrun & Hu & Hx & Hst & Hsl & Hcmds).
    cbn [Nat.add] in Hrun. rewrite Hrun.
    cbn [s0 record n_uuid n_exec n_stat trace commands] in Hu, Hx, Hst, Hcmds.
    rewrite openLoop_opened by (rewrite Hu, Hx; exact H2).
    rewrite Hu. fold third.
    destruct (waitDevice_spec third 8 0 fuel
                (attempted (attempt_Cmd env cryptsetup key path (n_uuid s + 2)) s1)
                eq_refl Hfuel)
      as (m' & s' & Hm' & Hwait & _ & Hcmds' & Hu' & Hmiss' & Hlast).
    cbn [attempted record tick_exec tick_uuid n_stat n_uuid trace commands]
      in Hwait, Hcmds', Hu', Hmiss', Hlast.
    rewrite Hst in Hwait, Hmiss', Hlast.
    assert (m' = m) as ->.
    { destruct (Nat.lt_trichotomy m' m) as [Hlt | [Heq | Hgt]];
        [| exact Heq |].
      - specialize (Hlast (Hmiss m' Hlt)). lia.
      - specialize (Hmiss' m Hgt). rewrite Hshow in Hmiss'. discriminate. }
    change (Z.of_nat 0) with 0 in Hwait.
    rewrite Hwait, Hshow. cbn [poll_verdict].
    eexists. split; [reflexivity |].
    cbn [trace record commands n_uuid]. rewrite Hcmds', Hcmds, Hu', Hu.
    split; [| lia].
    subst attempts. rewrite <- app_assoc. reflexivity.
Qed.

(** C4.  After a [cryptsetup open] invocation that succeeded, [Open]
    looks for the mapper device, waiting [backoff k], that is 100 * 2^k
    milliseconds, after the look numbered [k] that found it missing.
    [Open] fails with the did-not-show-up error exactly when the device
    is still missing once the waits add up to 25.5 s, which is when all
    nine looks found it missing. *)
Theorem Open_device_polling fuel key path s fd cryptsetup j :
  lock_Exclusive env "/dev/mapper" = Fine fd ->
  bin_FindBin env "cryptsetup" = Fine cryptsetup ->
  fs_IsOwner env cryptsetup 0 = true ->
  (8 < fuel)%nat ->
  (j < 3)%nat ->
  (forall i, (i < j)%nat ->
     collides_at env cryptsetup key path (n_uuid s + i) (n_exec s + i) = true) ->
  opens_at env cryptsetup key path (n_uuid s + j) (n_exec s + j) = true ->
  let name := name_at env (n_uuid s + j) in
  let look k := os_Stat env (n_stat s + k) (mapper name) in
  exists r n s',
    (n <= 8)%nat /\
    Open env fuel key path s = Some (r, s') /\
    sleeps (trace s') = (sleeps (trace s) ++ map backoff (seq 0 n))%list /\
    (forall k, (k < n)%nat -> is_missing (look k) = true) /\
    (r = Err (errDidNotShowUp name 8) <->
       is_missing (look n) = true /\
       25500 * Millisecond <= total (map backoff (seq 0 n))) /\
    (r = Err (errDidNotShowUp name 8) <->
       forall k, (k <= 8)%nat -> is_missing (look k) = true).
Proof.
  intros Hlock Hbin Hown Hfuel Hj Hcoll Hopen name look.
  rewrite (Open_enters_loop fuel key path s fd cryptsetup Hlock Hbin Hown).
  destruct (openLoop_collisions fuel cryptsetup key path j (3 - j)
              (record (EvLock "/dev/mapper" fd) s) Hcoll)
    as (s1 & Hrun & Hu & Hx & Hst & Hsl & _).
  replace (j + (3 - j))%nat with 3%nat in Hrun by lia. rewrite Hrun.
  cbn [record n_uuid n_exec n_stat trace sleeps] in Hu, Hx, Hst, Hsl.
  replace (3 - j)%nat with (Datatypes.S (2 - j)) by lia.
  rewrite openLoop_opened by (rewrite Hu, Hx; exact Hopen).
  rewrite Hu. fold name.
  destruct (waitDevice_spec name 8 0 fuel
              (attempted (attempt_Cmd env cryptsetup key path (n_uuid s + j)) s1)
              eq_refl Hfuel)
    as (n & s' & Hn & Hwait & Hsleeps & _ & _ & Hmiss & Hlast).
  cbn [attempted record tick_exec tick_uuid n_stat trace sleeps]
    in Hwait, Hsleeps, Hmiss, Hlast.
  rewrite Hst in Hwait, Hmiss, Hlast. rewrite Hsl in Hsleeps.
  change (Z.of_nat 0) with 0 in Hwait. rewrite Hwait.
  fold (look n) in Hlast |- *.
  assert (Hverdict :
    match poll_verdict name (look n) with
    | Some e => Err e
    | None => Ok name
    end = Err (errDidNotShowUp name 8) <-> is_missing (look n) = true).
  { destruct (look n); cbn; split; intros H;
      try discriminate; reflexivity. }
  eexists. exists n. eexists.
  split; [exact Hn |]. split; [reflexivity |].
  split; [exact Hsleeps |]. split; [exact Hmiss |].
  split; (rewrite Hverdict; split).
  - intros H. split; [exact H |]. apply backoff_total; auto.
  - intros [H _]. exact H.
  - intros H k Hk. specialize (Hlast H). subst n.
    destruct (Nat.eq_dec k 8) as [-> | Hne]; [exact H | apply Hmiss; lia].
  - intros H. apply H, Hn.
Qed.

(** C5.  When a [cryptsetup open] invocation of [Open] fails with an
    output that contains "No key available" and not "Device already
    exists", and [cryptsetup --version] then reports a 2.x version, [Open]
    returns [ErrInvalidPassphrase], whose message is "no key available
    with this passphrase". *)
Theorem Open_invalid_passphrase fuel key path s fd cryptsetup j :
  lock_Exclusive env "/dev/mapper" = Fine fd ->
  bin_FindBin env "cryptsetup" = Fine cryptsetup ->
  fs_IsOwner env cryptsetup 0 = true ->
  (j < 3)%nat ->
  (forall i, (i < j)%nat ->
     collides_at env cryptsetup key path (n_uuid s + i) (n_exec s + i) = true) ->
  no_key_at env cryptsetup key path (n_uuid s + j) (n_exec s + j) = true ->
  reports_2x_at env cryptsetup (Datatypes.S (n_exec s + j)) = true ->
  (exists s',
     Open env fuel key path s = Some (Err ErrInvalidPassphrase, s')) /\
  Error ErrInvalidPassphrase = "no key available with this passphrase".
Proof.
  intros Hlock Hbin Hown Hj Hcoll Hkey Hversion.
  split; [| reflexivity].
  rewrite (Open_enters_loop fuel key path s fd cryptsetup Hlock Hbin Hown).
  destruct (openLoop_collisions fuel cryptsetup key path j (3 - j)
              (record (EvLock "/dev/mapper" fd) s) Hcoll)
    as (s1 & Hrun & Hu & Hx & _).
  replace (j + (3 - j))%nat with 3%nat in Hrun by lia. rewrite Hrun.
  cbn [record n_uuid n_exec] in Hu, Hx.
  replace (3 - j)%nat with (Datatypes.S (2 - j)) by lia.
  destruct (openLoop_no_key fuel (2 - j) cryptsetup key path s1) as [s' Hs'].
  - rewrite Hu, Hx. exact Hkey.
  - rewrite Hx. exact Hversion.
  - rewrite Hs'. eauto.
Qed.

(** *** Copying the image *)

Lemma wrap64_id (z : Z) : 0 <= z <= int64_max -> wrap64 z = z.
Proof.
  unfold int64_max. intros H. apply wrap64_small. lia.
Qed.

Lemma written_record_write fd data s :
  written fd (trace (record (EvWrite fd data) s))
  = (written fd (trace s) ++ data)%list.
Proof. cbn. rewrite Z.eqb_refl. reflexivity. Qed.

Lemma writeBuffer_spec (dest : string) (destFd : Z) (buffer : list byte) :
  writes_progress env destFd ->
  forall (d : nat) (n w : Z) (s : State),
    let numRead := Z.of_nat (List.length buffer) in
    0 <= n <= numRead ->
    numRead - n <= Z.of_nat d ->
    numRead <= buffer_cap ->
    0 <= w ->
    w + (numRead - n) <= int64_max ->
    exists s',
      n_read s' = n_read s /\
      written destFd (trace s')
        = (written destFd (trace s) ++ skipn (Z.to_nat n) buffer)%list /\
      forall fuel,
        ((d < fuel)%nat ->
         writeBuffer env fuel destFd dest buffer numRead n w s
           = Some (Ok (w + (numRead - n)), s')) /\
        (writeBuffer env fuel destFd dest buffer numRead n w s = None \/
         writeBuffer env fuel destFd dest buffer numRead n w s
           = Some (Ok (w + (numRead - n)), s')).
Proof.
  intros Hprogress d.
  induction d as [| d IH]; intros n w s numRead Hn Hd Hcap Hw Hmax.
  - assert (n = numRead) as -> by lia.
    exists s. split; [reflexivity |].
    split.
    { subst numRead. rewrite Nat2Z.id, skipn_all, app_nil_r. reflexivity. }
    intros [| fuel]; (split; [intros; try lia |]); cbn [writeBuffer];
      rewrite ?Z.ltb_irrefl, ?Z.sub_diag, ?Z.add_0_r; auto.
  - destruct (Z.ltb_spec n numRead) as [Hlt | Hge].
    + set (data := skipn (Z.to_nat n) buffer).
      assert (Hlen : Z.of_nat (List.length data) = numRead - n).
      { subst data numRead. rewrite length_skipn. lia. }
      assert (Hne : data <> []).
      { intros E. rewrite E in Hlen. cbn in Hlen. lia. }
      destruct (Hprogress (n_write s) data Hne) as (nw & Hwrite & Hnw).
      unfold buffer_cap, int64_max in *.
      destruct (IH (n + nw) (w + nw)
                  (record (EvWrite destFd (firstn (Z.to_nat nw) data))
                     (tick_write s)))
        as (s' & Hread & Hwritten & Hrun); try (fold numRead; lia).
      exists s'. split; [exact Hread |]. split.
      { rewrite Hwritten, written_record_write, <- app_assoc.
        f_equal. subst data.
        replace (Z.to_nat (n + nw)) with (Z.to_nat nw + Z.to_nat n)%nat by lia.
        rewrite <- skipn_skipn. apply firstn_skipn. }
      fold numRead in Hrun.
      assert (Hstep : forall fuel,
        writeBuffer env (Datatypes.S fuel) destFd dest buffer numRead n w s
        = writeBuffer env fuel destFd dest buffer numRead (n + nw) (w + nw)
            (record (EvWrite destFd (firstn (Z.to_nat nw) data))
               (tick_write s))).
      { intros fuel. cbn [writeBuffer].
        destruct (Z.ltb_spec n numRead); [| lia].
        unfold sys_Write, bind. fold data. rewrite Hwrite.
        rewrite !wrap64_id by (unfold int64_max; lia). reflexivity. }
      replace (w + (numRead - n)) with (w + nw + (numRead - (n + nw))) by lia.
      intros [| fuel].
      * split; [intros; lia | left; reflexivity].
      * rewrite Hstep. destruct (Hrun fuel) as [Hgo Hany].
        split; [intros; apply Hgo; lia | exact Hany].
    + assert (n = numRead) as -> by lia.
      exists s. split; [reflexivity |].
      split.
      { subst numRead. rewrite Nat2Z.id, skipn_all, app_nil_r. reflexivity. }
      intros [| fuel]; (split; [intros; try lia |]); cbn [writeBuffer];
        rewrite ?Z.ltb_irrefl, ?Z.sub_diag, ?Z.add_0_r; auto.
Qed.

Lemma supplied_S fd k0 n :
  supplied env fd k0 (Datatypes.S n)
  = (chunk env fd k0 ++ supplied env fd (Datatypes.S k0) n)%list.
Proof. reflexivity. Qed.

Lemma chunk_length fd k :
  Z.of_nat (List.length (chunk env fd k)) <= buffer_cap.
Proof.
  unfold chunk. destruct (syscall_Read env k fd) as [data | m].
  - rewrite length_firstn. unfold buffer_cap. lia.
  - unfold buffer_cap. cbn. lia.
Qed.

Section CopyLoop.

Variables (source dest : string) (sourceFd destFd size : Z).

Hypothesis Hreads : reads_succeed env sourceFd.
Hypothesis Hwrites : writes_progress env destFd.
Hypothesis Hsize : size <= int64_max - buffer_cap.

Local Abbreviation got := (supplied_len env sourceFd).

Lemma got_S k0 n :
  got k0 (Datatypes.S n)
  = Z.of_nat (List.length (chunk env sourceFd k0)) + got (Datatypes.S k0) n.
Proof.
  unfold supplied_len. rewrite supplied_S, length_app. lia.
Qed.

(** One turn of the outer loop. *)
Lemma copyLoop_turn (w : Z) (s : State) :
  0 <= w < size ->
  let len := Z.of_nat (List.length (chunk env sourceFd (n_read s))) in
  exists s2,
    n_read s2 = Datatypes.S (n_read s) /\
    written destFd (trace s2)
      = (written destFd (trace s) ++ chunk env sourceFd (n_read s))%list /\
    forall fuel,
      let next := copyLoop env fuel sourceFd destFd source dest size (w + len) s2 in
      let this :=
        copyLoop env (Datatypes.S fuel) sourceFd destFd source dest size w s in
      (this = None \/ this = next) /\
      ((Z.to_nat len < fuel)%nat -> this = next).
Proof.
  intros Hw len.
  destruct (Hreads (n_read s)) as [data Hread].
  assert (Hchunk : chunk env sourceFd (n_read s)
                   = firstn (Z.to_nat buffer_cap) data).
  { unfold chunk. rewrite Hread. reflexivity. }
  pose proof (chunk_length sourceFd (n_read s)) as Hlen. fold len in Hlen.
  set (buffer := chunk env sourceFd (n_read s)) in *.
  destruct (writeBuffer_spec dest destFd buffer Hwrites
              (List.length buffer) 0 w
              (record (EvRead sourceFd buffer) (tick_read s)))
    as (s2 & Hread2 & Hwritten & Hrun);
    try (fold len; unfold int64_max, buffer_cap in *; lia).
  exists s2. split; [exact Hread2 |].
  split; [exact Hwritten |].
  intros fuel next this. subst next this. cbn [copyLoop].
  destruct (Z.ltb_spec w size); [| lia].
  unfold sys_Read, bind. rewrite Hread. rewrite <- Hchunk.
  fold len in Hrun. replace (w + (len - 0)) with (w + len) in Hrun by lia.
  destruct (Hrun fuel) as [Hgo Hany].
  split.
  - destruct Hany as [Hnone | Hsome].
    + left. fold buffer len. rewrite Hnone. reflexivity.
    + right. fold buffer len. rewrite Hsome. reflexivity.
  - intros Hfuel. fold buffer len. rewrite Hgo; [reflexivity |].
    subst len. rewrite Nat2Z.id in Hfuel. exact Hfuel.
Qed.

Lemma copyLoop_returns (fuel : nat) :
  forall (w : Z) (s : State) (r : option error) (s' : State),
    0 <= w ->
    copyLoop env fuel sourceFd destFd source dest size w s = Some (r, s') ->
    r = None /\
    exists n,
      size <= w + got (n_read s) n /\
      (forall n', (n' < n)%nat -> w + got (n_read s) n' < size) /\
      written destFd (trace s')
        = (written destFd (trace s) ++ supplied env sourceFd (n_read s) n)%list.
Proof.
  induction fuel as [| fuel IH]; intros w s r s' Hw Hrun.
  - discriminate.
  - destruct (Z.ltb_spec w size) as [Hlt | Hge].
    + destruct (copyLoop_turn w s ltac:(lia))
        as (s2 & Hread2 & Hwritten2 & Hturn).
      destruct (Hturn fuel) as [[Hnone | Hnext] _]; [congruence |].
      rewrite Hnext in Hrun.
      apply IH in Hrun; [| lia].
      destruct Hrun as (-> & n & Hn & Hmin & Hwritten).
      split; [reflexivity |]. exists (Datatypes.S n).
      rewrite Hread2 in Hn, Hmin, Hwritten.
      split; [rewrite got_S; lia |].
      split.
      * intros [| n'] Hn'; [unfold supplied_len; cbn; lia |].
        rewrite got_S. specialize (Hmin n' ltac:(lia)). lia.
      * rewrite Hwritten, Hwritten2, supplied_S, <- app_assoc. reflexivity.
    + cbn [copyLoop] in Hrun.
      destruct (Z.ltb_spec w size); [lia |].
      injection Hrun as <- <-.
      split; [reflexivity |]. exists 0%nat.
      split; [unfold supplied_len; cbn; lia |].
      split; [intros; lia |].
      cbn. rewrite app_nil_r. reflexivity.
Qed.

Lemma copyLoop_terminates (n : nat) :
  forall (w : Z) (s : State),
    0 <= w ->
    size <= w + got (n_read s) n ->
    exists fuel0, forall fuel, (fuel0 <= fuel)%nat ->
      exists s',
        copyLoop env fuel sourceFd destFd source dest size w s = Some (None, s').
Proof.
  induction n as [| n IH]; intros w s Hw Hn.
  - exists 1%nat. intros [| fuel] Hfuel; [lia |].
    cbn [copyLoop]. unfold supplied_len in Hn. cbn in Hn.
    destruct (Z.ltb_spec w size); [lia |]. eexists. reflexivity.
  - destruct (Z.ltb_spec w size) as [Hlt | Hge].
    + destruct (copyLoop_turn w s ltac:(lia))
        as (s2 & Hread2 & _ & Hturn).
      set (len := Z.of_nat (List.length (chunk env sourceFd (n_read s)))) in *.
      destruct (IH (w + len) s2) as [fuel1 Hfuel1].
      { subst len. lia. }
      { rewrite Hread2. rewrite got_S in Hn. fold len in Hn. lia. }
      exists (Datatypes.S (Datatypes.S (Z.to_nat len) + fuel1)).
      intros [| fuel] Hfuel; [lia |].
      destruct (Hturn fuel) as [_ Hgo]. rewrite Hgo by lia.
      apply Hfuel1. lia.
    + exists 1%nat. intros [| fuel] Hfuel; [lia |].
      cbn [copyLoop].
      destruct (Z.ltb_spec w size); [lia |]. eexists. reflexivity.
Qed.

(** Once the source only answers with end of file, nothing more is
    supplied. *)
Lemma got_after_eof (k0 n0 : nat) :
  (forall k, (k0 + n0 <= k)%nat -> chunk env sourceFd k = []) ->
  forall n, got k0 n <= got k0 n0.
Proof.
  intros Heof.
  assert (Hempty : forall m k, (k0 + n0 <= k)%nat -> got k m = 0).
  { induction m as [| m IHm]; intros k Hk; [reflexivity |].
    rewrite got_S, Heof by exact Hk. rewrite IHm by lia. reflexivity. }
  assert (Hmono : forall m k, got k m <= got k (Datatypes.S m)).
  { induction m as [| m IHm]; intros k.
    - rewrite got_S. unfold supplied_len. cbn. lia.
    - rewrite (got_S k (Datatypes.S m)), (got_S k m).
      specialize (IHm (Datatypes.S k)). lia. }
  assert (Hsplit : forall a b k, got k (a + b) = got k a + got (k + a) b).
  { induction a as [| a IHa]; intros b k.
    - rewrite Nat.add_0_r. unfold supplied_len at 2. cbn. lia.
    - cbn [Nat.add]. rewrite !got_S, IHa.
      replace (Datatypes.S k + a)%nat with (k + Datatypes.S a)%nat by lia. lia. }
  intros n. destruct (Nat.le_gt_cases n n0) as [Hle | Hgt].
  - replace n0 with (n + (n0 - n))%nat by lia. rewrite Hsplit.
    unfold supplied_len. lia.
  - replace n with (n0 + (n - n0))%nat by lia.
    rewrite Hsplit, (Hempty (n - n0) (k0 + n0))%nat by lia. lia.
Qed.

End CopyLoop.

Lemma copyDeviceContents_runs_loop fuel source dest size s sourceFd destFd :
  syscall_Open env source O_RDONLY = Fine sourceFd ->
  syscall_Open env dest O_WRONLY = Fine destFd ->
  copyDeviceContents env fuel source dest size s =
    match copyLoop env fuel sourceFd destFd source dest size 0
            (record (EvOpen dest destFd) (record (EvOpen source sourceFd) s))
    with
    | Some (r, s') =>
        Some (r, record (EvClose sourceFd) (record (EvClose destFd) s'))
    | None => None
    end.
Proof.
  intros Hsrc Hdst. unfold copyDeviceContents. unfold_calls.
  rewrite Hsrc, Hdst.
  destruct (copyLoop env fuel sourceFd destFd source dest size 0 _)
    as [[r s'] |]; reflexivity.
Qed.

(** C9.  With source and destination opened, reads that do not fail and
    writes that do not fail and make progress: [copyDeviceContents]
    returns exactly when the reads of the source supply at least [size]
    bytes.  When it returns it returns no error, it has performed the
    reads up to the first that brings the total to [size], and it has
    written all the bytes of those reads to the destination.  When the
    source is at end of file (every further read answers 0 bytes) with
    fewer than [size] bytes supplied, the loop does not return, whatever
    the fuel, so no error is returned either. *)
Theorem copyDeviceContents_returns_iff_supplied
  source dest size s sourceFd destFd :
  syscall_Open env source O_RDONLY = Fine sourceFd ->
  syscall_Open env dest O_WRONLY = Fine destFd ->
  reads_succeed env sourceFd ->
  writes_progress env destFd ->
  size <= int64_max - buffer_cap ->
  let got := supplied_len env sourceFd (n_read s) in
  ((exists fuel r s',
      copyDeviceContents env fuel source dest size s = Some (r, s')) <->
   (exists n, size <= got n)) /\
  (forall fuel r s',
     copyDeviceContents env fuel source dest size s = Some (r, s') ->
     r = None /\
     exists n,
       size <= got n /\
       (forall n', (n' < n)%nat -> got n' < size) /\
       written destFd (trace s')
         = (written destFd (trace s)
            ++ supplied env sourceFd (n_read s) n)%list) /\
  (forall n0,
     got n0 < size ->
     (forall k, (n_read s + n0 <= k)%nat -> chunk env sourceFd k = []) ->
     forall fuel, copyDeviceContents env fuel source dest size s = None).
Proof.
  intros Hsrc Hdst Hreads Hwrites Hsize got.
  set (s0 := record (EvOpen dest destFd) (record (EvOpen source sourceFd) s)).
  assert (Hreturns : forall fuel r s',
     copyDeviceContents env fuel source dest size s = Some (r, s') ->
     r = None /\
     exists n,
       size <= got n /\
       (forall n', (n' < n)%nat -> got n' < size) /\
       written destFd (trace s')
         = (written destFd (trace s)
            ++ supplied env sourceFd (n_read s) n)%list).
  { intros fuel r s' Hrun.
    rewrite (copyDeviceContents_runs_loop fuel source dest size s
               sourceFd destFd Hsrc Hdst) in Hrun.
    fold s0 in Hrun.
    destruct (copyLoop env fuel sourceFd destFd source dest size 0 s0)
      as [[r1 s1] |] eqn:Hloop; [| discriminate].
    injection Hrun as <- <-.
    destruct (copyLoop_returns source dest sourceFd destFd size
                Hreads Hwrites Hsize fuel 0 s0 r1 s1 ltac:(lia) Hloop)
      as (-> & n & Hn & Hmin & Hwritten).
    split; [reflexivity |]. exists n.
    cbn [s0 n_read record trace written] in Hn, Hmin, Hwritten.
    split; [exact Hn |]. split; [exact Hmin |]. exact Hwritten. }
  split; [split |split].
  - intros (fuel & r & s' & Hrun).
    destruct (Hreturns fuel r s' Hrun) as (_ & n & Hn & _). eauto.
  - intros (n & Hn).
    destruct (copyLoop_terminates source dest sourceFd destFd size
                Hreads Hwrites Hsize n 0 s0 ltac:(lia) Hn)
      as (fuel0 & Hfuel0).
    destruct (Hfuel0 fuel0 (le_n _)) as (s' & Hloop).
    exists fuel0. do 2 eexists.
    rewrite (copyDeviceContents_runs_loop fuel0 source dest size s
               sourceFd destFd Hsrc Hdst).
    fold s0. rewrite Hloop. reflexivity.
  - exact Hreturns.
  - intros n0 Hn0 Heof fuel.
    destruct (copyDeviceContents env fuel source dest size s)
      as [[r s'] |] eqn:Hrun; [| reflexivity].
    destruct (Hreturns fuel r s' Hrun) as (_ & n & Hn & _).
    pose proof (got_after_eof sourceFd (n_read s) n0 Heof n) as Hle.
    subst got. lia.
Qed.

(** *** The version check of [EncryptFilesystem] *)

(** C2, amended.  When [EncryptFilesystem] reaches cryptsetup (the image
    was found, the temporary file created and sized, the loop device
    attached, the binary located and owned by root), the [luksFormat]
    command fails and [--version] runs but does not report a 2.x
    version, [EncryptFilesystem] returns
    [ErrUnsupportedCryptsetupVersion]; the version is only examined after
    that failure, so the loop device of this invocation is attached by
    then. *)
Theorem EncryptFilesystem_unsupported_version
  fuel path key tempdir s fSize cryptF maxLoopDev idx cryptsetup out e vout :
  let devSize := wrap64 (fSize + 16 * 1024 * 1024) in
  let loop := "/dev/loop" ++ itoa idx in
  os_Stat env (n_stat s) path = StatOk fSize ->
  os_CreateTemp env tempdir "crypt-" = Fine cryptF ->
  os_Truncate env cryptF devSize = None ->
  (devSize <? 0) = false ->
  loop_GetMaxLoopDevices env = Fine maxLoopDev ->
  loop_AttachFromPath env maxLoopDev
    {| Sizelimit := devSize; Offset := 0; Flags := LO_FLAGS_AUTOCLEAR |}
    cryptF O_RDWR = Fine idx ->
  bin_FindBin env "cryptsetup" = Fine cryptsetup ->
  String.eqb cryptsetup "" = false ->
  fs_IsOwner env cryptsetup 0 = true ->
  exec_StdinPipe env (luksFormat_Cmd cryptsetup [] loop) = None ->
  exec_CombinedOutput env (n_exec s) (luksFormat_Cmd cryptsetup key loop)
    = (out, Some e) ->
  exec_CombinedOutput env (Datatypes.S (n_exec s))
    (Command cryptsetup ["--version"]) = (vout, None) ->
  Contains vout "cryptsetup 2." = false ->
  exists s',
    EncryptFilesystem env fuel path key tempdir s
      = Some (Err ErrUnsupportedCryptsetupVersion, s') /\
    attached (trace s') = (attached (trace s) ++ [idx])%list /\
    commands (trace s') =
      (commands (trace s)
       ++ [luksFormat_Cmd cryptsetup key loop;
           Command cryptsetup ["--version"]])%list.
Proof.
  intros devSize loop Hstat Htemp Htrunc Hcast Hmax Hattach Hbin Hname Hown
    Hpipe Hformat Hversion Hold.
  unfold EncryptFilesystem, createLoop, safecast_ToUint64,
    checkCryptsetupVersion.
  unfold_calls.
  rewrite Hstat, Htemp. fold devSize. rewrite Htrunc, Hcast, Hmax, Hattach.
  rewrite Hbin, Hown. cbn [negb]. fold loop. rewrite Hpipe.
  crypt_simpl. rewrite Hformat.
  crypt_simpl. rewrite Hname. crypt_simpl. rewrite Hversion.
  crypt_simpl. rewrite Hold.
  crypt_simpl.
  eexists. split; [reflexivity |]. cbn [trace record tick_exec attached commands].
  split; [reflexivity |]. rewrite <- app_assoc. reflexivity.
Qed.

End CryptProperties.

(** C6 at a host whose cryptsetup belongs to an ordinary user. *)
Lemma not_owned_by_root_fails_before_cryptsetup_witness :
  (forall fuel key path s, exists e s',
     Open Scenario.foreign_binary_host fuel key path s = Some (Err e, s') /\
     n_exec s' = n_exec s /\ commands (trace s') = commands (trace s)) /\
  (forall path s, exists e s',
     CloseCryptDevice Scenario.foreign_binary_host path s = Some (Some e, s') /\
     n_exec s' = n_exec s /\ commands (trace s') = commands (trace s)) /\
  (forall fuel path key tempdir s, exists e s',
     EncryptFilesystem Scenario.foreign_binary_host fuel path key tempdir s
       = Some (Err e, s') /\
     n_exec s' = n_exec s /\ commands (trace s') = commands (trace s)).
Proof.
  apply (not_owned_by_root_fails_before_cryptsetup
           Scenario.foreign_binary_host "/usr/sbin/cryptsetup");
    reflexivity.
Defined.

Lemma Open_retries_on_collision_witness :
  (exists s',
     Open Scenario.collide_always_host 9 Scenario.key "/dev/loop0" init
       = Some (Err (New "unable to open crypt device"), s') /\
     n_uuid s' = 3%nat) /\
  (exists s',
     Open Scenario.collide_twice_host 9 Scenario.key "/dev/loop0" init
       = Some (Ok "886313e1-3b8a-4372-9b90-0c9aee199e5d", s') /\
     n_uuid s' = 3%nat).
Proof.
  split.
  - destruct (proj1 (Open_retries_on_collision Scenario.collide_always_host
                       9 Scenario.key "/dev/loop0" init 3
                       "/usr/sbin/cryptsetup"
                       eq_refl eq_refl eq_refl eq_refl eq_refl) eq_refl)
      as (s' & Hrun & _ & Hu).
    exists s'. split; assumption.
  - destruct (proj2 (Open_retries_on_collision Scenario.collide_twice_host
                       9 Scenario.key "/dev/loop0" init 3
                       "/usr/sbin/cryptsetup"
                       eq_refl eq_refl eq_refl eq_refl eq_refl) eq_refl
                3%nat 0 ltac:(lia) ltac:(lia))
      as (s' & Hrun & _ & Hu).
    + intros [| [| [| k]]] Hk; [reflexivity .. | lia].
    + reflexivity.
    + exists s'. split; assumption.
Defined.

Lemma Open_device_polling_witness :
  exists r n s',
    (n <= 8)%nat /\
    Open Scenario.no_device_host 9 Scenario.key "/dev/loop0" init = Some (r, s') /\
    sleeps (trace s') = map backoff (seq 0 n) /\
    (forall k, (k < n)%nat ->
       is_missing (os_Stat Scenario.no_device_host k
                     (mapper "1b4e28ba-2fa1-41d2-883f-0016d3cca427")) = true) /\
    (r = Err (errDidNotShowUp "1b4e28ba-2fa1-41d2-883f-0016d3cca427" 8) <->
       is_missing (os_Stat Scenario.no_device_host n
                     (mapper "1b4e28ba-2fa1-41d2-883f-0016d3cca427")) = true /\
       25500 * Millisecond <= total (map backoff (seq 0 n))) /\
    (r = Err (errDidNotShowUp "1b4e28ba-2fa1-41d2-883f-0016d3cca427" 8) <->
       forall k, (k <= 8)%nat ->
         is_missing (os_Stat Scenario.no_device_host k
                       (mapper "1b4e28ba-2fa1-41d2-883f-0016d3cca427")) = true).
Proof.
  apply (Open_device_polling Scenario.no_device_host 9 Scenario.key
           "/dev/loop0" init 3 "/usr/sbin/cryptsetup" 0);
    try reflexivity; lia.
Defined.

Lemma Open_invalid_passphrase_witness :
  (exists s',
     Open Scenario.wrong_key_host 0 Scenario.key "/dev/loop0" init
       = Some (Err ErrInvalidPassphrase, s')) /\
  Error ErrInvalidPassphrase = "no key available with this passphrase".
Proof.
  apply (Open_invalid_passphrase Scenario.wrong_key_host 0 Scenario.key
           "/dev/loop0" init 3 "/usr/sbin/cryptsetup" 0);
    try reflexivity; lia.
Defined.

Lemma four_byte_host_io :
  reads_succeed Scenario.four_byte_host 4 /\
  writes_progress Scenario.four_byte_host 5.
Proof.
  split.
  - intros [| [| k]]; eexists; reflexivity.
  - intros k [| b data] Hne; [congruence |].
    eexists. split; [reflexivity |]. cbn [List.length]. lia.
Qed.

(** C9 on a source of four bytes: three bytes are copied after two
    reads; five bytes are never copied. *)
Lemma copyDeviceContents_returns_iff_supplied_witness :
  (exists fuel r s',
     copyDeviceContents Scenario.four_byte_host fuel "image.sqfs"
       "/dev/mapper/x" 3 init = Some (r, s')) /\
  (forall fuel,
     copyDeviceContents Scenario.four_byte_host fuel "image.sqfs"
       "/dev/mapper/x" 5 init = None).
Proof.
  split.
  - apply (proj1 (copyDeviceContents_returns_iff_supplied
                    Scenario.four_byte_host "image.sqfs" "/dev/mapper/x" 3
                    init 4 5 eq_refl eq_refl
                    (proj1 four_byte_host_io) (proj2 four_byte_host_io)
                    ltac:(vm_compute; discriminate))).
    exists 2%nat. vm_compute. discriminate.
  - apply (proj2 (proj2 (copyDeviceContents_returns_iff_supplied
                    Scenario.four_byte_host "image.sqfs" "/dev/mapper/x" 5
                    init 4 5 eq_refl eq_refl
                    (proj1 four_byte_host_io) (proj2 four_byte_host_io)
                    ltac:(vm_compute; discriminate)))
             2%nat).
    + vm_compute. reflexivity.
    + intros [| [| k]] Hk; [cbn in Hk; lia .. | reflexivity].
Defined.

(** C2, as stated, fails: on a host with cryptsetup 1.7.5
    [EncryptFilesystem] does return the unsupported-version error, but the
    loop device of the invocation has been attached by the time it
    returns. *)
Lemma EncryptFilesystem_old_cryptsetup_attaches_loop :
  Contains (fst (Scenario.run_old_cryptsetup 1
                   (Command "/usr/sbin/cryptsetup" ["--version"])))
    "cryptsetup 2." = false /\
  option_map fst
    (EncryptFilesystem Scenario.old_cryptsetup_host 0 "image.sqfs"
       Scenario.key "/tmp" init)
    = Some (Err ErrUnsupportedCryptsetupVersion) /\
  option_map (fun r => attached (trace (snd r)))
    (EncryptFilesystem Scenario.old_cryptsetup_host 0 "image.sqfs"
       Scenario.key "/tmp" init)
    <> Some [].
Proof.
  split; [reflexivity | split; [reflexivity |]].
  vm_compute. discriminate.
Qed.

Lemma EncryptFilesystem_unsupported_version_witness :
  exists s',
    EncryptFilesystem Scenario.old_cryptsetup_host 0 "image.sqfs"
      Scenario.key "/tmp" init
      = Some (Err ErrUnsupportedCryptsetupVersion, s') /\
    attached (trace s') = [0] /\
    commands (trace s') =
      [luksFormat_Cmd "/usr/sbin/cryptsetup" Scenario.key "/dev/loop0";
       Command "/usr/sbin/cryptsetup" ["--version"]].
Proof.
  apply (EncryptFilesystem_unsupported_version Scenario.old_cryptsetup_host
           0%nat "image.sqfs" Scenario.key "/tmp" init 4096 "/tmp/crypt-1"
           256 0 "/usr/sbin/cryptsetup"
           "Usage: cryptsetup [OPTION...] <action> <action-specific>"
           "exit status 1" "cryptsetup 1.7.5");
    reflexivity.
Defined.

(** * Further properties of the code *)

(** ** starter: the container-create task *)

Section StarterFurther.

Import Starter.

(** X1.  [createContainer] sends at most one error on the fatal channel,
    and sends one exactly when the RPC socket is bad, the connection cannot
    be made, or the engine's [CreateContainer] fails.  [CreateContainer] is
    called whenever the connection was made, whatever the configuration
    and whether or not apptheus could be reached, and the RPC connection
    is closed exactly when nothing was sent. *)
Theorem createContainer_reports_failures (w : CreateWorld) :
  (List.length (filter is_CrFatalSend (createContainer w)) <= 1)%nat /\
  (existsb is_CrFatalSend (createContainer w) = true <->
     cw_NewFile_ok w = false \/ cw_FileConn_err w <> None
     \/ cw_CreateContainer w <> None) /\
  (existsb is_CrCall (createContainer w) = true <->
     cw_NewFile_ok w = true /\ cw_FileConn_err w = None) /\
  (existsb is_CrRpcConnClose (createContainer w) = true <->
     existsb is_CrFatalSend (createContainer w) = false).
Proof.
  destruct w as [[|] [fc |] [[|] |] [mn |] [cc |]]; cbn;
    (split; [lia |]);
    repeat split; intros; try discriminate; try congruence; try tauto;
    try (right; right; discriminate); try (right; left; discriminate);
    try (left; reflexivity);
    try match goal with
        | H : _ /\ _ |- _ => destruct H; discriminate
        | H : _ \/ _ |- _ => destruct H as [H | [H | H]]; congruence
        end.
Qed.

(** ** starter: the start synchroniser on every path *)

Ltac split_startContainer :=
  unfold startContainer, waitExecution;
  repeat match goal with
         | |- context [match ?x with _ => _ end] =>
             match x with
             | context [match _ with _ => _ end] => fail 1
             | _ => destruct x eqn:?
             end
         | |- context [if ?x then _ else _] =>
             match x with
             | context [if _ then _ else _] => fail 1
             | context [match _ with _ => _ end] => fail 1
             | _ => destruct x eqn:?
             end
         end.

(** X2.  Whatever the socket and the engine do, [startContainer] sends at
    most one error on the fatal channel, reads the socket at most twice,
    calls [PostStartProcess] at most once and, for an engine with the
    [PreStartProcess] hook, only after that hook; after sending an error
    it does nothing but close the connection, and the connection, once
    made, is closed last. *)
Theorem startContainer_discipline (w : World) (e : Engine) :
  (List.length (filter is_FatalSend (startContainer w e)) <= 1)%nat /\
  (List.length (filter is_CallPostStartProcess (startContainer w e)) <= 1)%nat /\
  (reads_made (startContainer w e) <= 2)%nat /\
  (PreStartProcess e <> None ->
   hook_before_post false (startContainer w e) = true) /\
  quiet_after_fatal (startContainer w e) = true /\
  (NewFile_ok w = true -> FileConn_err w = None ->
   last (startContainer w e) CommClose = ConnClose).
Proof.
  destruct w as [nf fc rd]; destruct e as [pre post]; cbn [NewFile_ok
    FileConn_err conn_Read PreStartProcess PostStartProcess].
  split_startContainer; cbn;
    repeat split; intros; try lia; try reflexivity; try discriminate;
    cbn in *; subst; try discriminate; try congruence.
Qed.

(** X3.  For an engine without the [PreStartProcess] hook the master
    reads the socket once.  It skips [PostStartProcess] exactly when that
    read fails with an error other than EOF or delivers the byte [f]; a
    socket that is closed before any byte arrives counts as a started
    container. *)
Theorem startContainer_without_hook (w : World) (e : Engine) :
  NewFile_ok w = true ->
  FileConn_err w = None ->
  PreStartProcess e = None ->
  reads_made (startContainer w e) = 1%nat /\
  calls_PreStartProcess (startContainer w e) = false /\
  (calls_PostStartProcess (startContainer w e) = false <->
     (exists m, rd_err (conn_Read w 0) = Some (net_error m)) \/
     rd_byte (conn_Read w 0) = Some "f"%char) /\
  (conn_Read w 0 = mkRead None (Some io_EOF) ->
   calls_PostStartProcess (startContainer w e) = true).
Proof.
  intros Hfile Hconn Hpre.
  pose proof (store_f Ascii.zero (conn_Read w 0) eq_refl) as Hstore.
  unfold startContainer, waitExecution. rewrite Hfile, Hconn, Hpre.
  cbn [negb].
  destruct (rd_err (conn_Read w 0)) as [[| m] |] eqn:Herr; cbn [orb];
    destruct (is_f (store Ascii.zero (conn_Read w 0))) eqn:Hf;
    destruct (PostStartProcess e); cbn;
    (split; [reflexivity |]); (split; [reflexivity |]);
    (split; [split |]); intros;
    try discriminate; try reflexivity;
    try (right; apply Hstore; reflexivity);
    try (left; eexists; reflexivity);
    try (exfalso;
         match goal with
         | H : _ \/ _ |- _ =>
             destruct H as [[m' Hm] | Hbyte];
             [discriminate | apply Hstore in Hbyte; discriminate]
         end);
    try (exfalso;
         match goal with
         | H : conn_Read w 0 = _ |- _ =>
             rewrite H in Hf, Herr; cbn in Hf, Herr; congruence
         end).
Qed.

Lemma startContainer_without_hook_witness :
  calls_PostStartProcess
    (startContainer world_closed_at_once engine_without_hook) = true.
Proof.
  apply (proj2 (proj2 (proj2
    (startContainer_without_hook world_closed_at_once engine_without_hook
       eq_refl eq_refl eq_refl)))).
  reflexivity.
Defined.

(** X4.  For an engine with the [PreStartProcess] hook, a first read that
    returns EOF, or the byte [f] without error, makes the master return
    after that one read without sending an error and without calling
    either hook; a first read that fails otherwise is reported on the
    fatal channel, again without calling either hook. *)
Theorem startContainer_first_read (w : World) (e : Engine)
  (pre : option string) :
  NewFile_ok w = true ->
  FileConn_err w = None ->
  PreStartProcess e = Some pre ->
  (rd_err (conn_Read w 0) = Some io_EOF \/
   (rd_err (conn_Read w 0) = None /\ rd_byte (conn_Read w 0) = Some "f"%char) ->
   existsb is_FatalSend (startContainer w e) = false /\
   calls_PreStartProcess (startContainer w e) = false /\
   calls_PostStartProcess (startContainer w e) = false /\
   reads_made (startContainer w e) = 1%nat) /\
  (forall m, rd_err (conn_Read w 0) = Some (net_error m) ->
   startContainer w e =
     [CommClose; ConnRead;
      FatalSend ("error while reading master socket data: " ++ m);
      ConnClose]).
Proof.
  intros Hfile Hconn Hpre.
  unfold startContainer. rewrite Hfile, Hconn, Hpre. cbn [negb].
  split.
  - intros [Heof | [Hnil Hf]].
    + rewrite Heof. cbn. repeat split.
    + rewrite Hnil. unfold store. rewrite Hf. cbn. repeat split.
  - intros m Hm. rewrite Hm. reflexivity.
Qed.

Lemma startContainer_first_read_witness :
  existsb is_FatalSend
    (startContainer world_closed_at_once engine_with_hook) = false /\
  calls_PreStartProcess
    (startContainer world_closed_at_once engine_with_hook) = false /\
  calls_PostStartProcess
    (startContainer world_closed_at_once engine_with_hook) = false /\
  reads_made (startContainer world_closed_at_once engine_with_hook) = 1%nat.
Proof.
  apply (proj1 (startContainer_first_read world_closed_at_once
                  engine_with_hook None eq_refl eq_refl eq_refl)).
  left. reflexivity.
Defined.

(** ** starter: the exit of the master *)

Lemma land_127_range (w : Z) : 0 <= Z.land w 127 <= 127.
Proof.
  change 127 with (Z.ones 7) at 1 2. rewrite Z.land_ones by lia.
  pose proof (Z.mod_pos_bound w (2 ^ 7) ltac:(lia)).
  change (2 ^ 7) with 128 in *. lia.
Qed.

Lemma land_255_range (w : Z) : 0 <= Z.land w 255 <= 255.
Proof.
  change 255 with (Z.ones 8) at 1 2. rewrite Z.land_ones by lia.
  pose proof (Z.mod_pos_bound w (2 ^ 8) ltac:(lia)).
  change (2 ^ 8) with 256 in *. lia.
Qed.

(** X5.  With no fatal error delivered, [Master] always ends in
    [os.Exit] with a code between 0 and 255, whatever the wait status:
    129 to 254 for a child killed by a signal, the exit status for a child
    that exited, and 0 for a status that is neither. *)
Theorem Master_exit_code_range (status : WaitStatus) (cleanup : option string) :
  exists code,
    last (Master_finish None status cleanup) SignalReset = Exit code /\
    0 <= code <= 255 /\
    (Signaled status = true -> 129 <= code <= 254) /\
    (Signaled status = false -> Exited status = false -> code = 0).
Proof.
  assert (Hlast : forall tail code,
    last (CleanupContainer None status ::
          cleanup_log cleanup ++ SignalReset :: tail ++ [Exit code])%list
      SignalReset = Exit code).
  { intros tail code.
    change (CleanupContainer None status ::
            cleanup_log cleanup ++ SignalReset :: tail ++ [Exit code])%list
      with ((CleanupContainer None status :: cleanup_log cleanup)
            ++ (SignalReset :: tail) ++ [Exit code])%list.
    rewrite app_assoc. apply last_last. }
  pose proof (land_127_range status) as H127.
  unfold Master_finish.
  destruct (Signaled status) eqn:Hsig.
  - exists (128 + WaitStatus_Signal status).
    split; [apply (Hlast [Raise (WaitStatus_Signal status)]) |].
    unfold WaitStatus_Signal. rewrite Hsig. cbn [negb].
    unfold Signaled, ws_mask, ws_exited in *.
    apply andb_prop in Hsig. destruct Hsig as [Hne1 Hne0].
    apply negb_true_iff in Hne1, Hne0.
    apply Z.eqb_neq in Hne1, Hne0.
    repeat split; intros; try discriminate; lia.
  - destruct (Exited status) eqn:Hex.
    + exists (ExitStatus status).
      split; [apply (Hlast []) |].
      unfold ExitStatus. rewrite Hex. cbn [negb].
      pose proof (land_255_range (Z.shiftr status ws_shift)).
      repeat split; intros; try discriminate; lia.
    + exists 0. split; [apply (Hlast []) |].
      repeat split; intros; try discriminate; lia.
Qed.

(** X6.  A failure of [CleanupContainer] is logged and changes nothing
    else: without the log entry the master does what it does when cleanup
    succeeds.  When a fatal error was delivered the master ends in
    [Fatalf] with that error, after cleanup, and neither resets the signal
    handlers, nor raises a signal, nor reaches [os.Exit]. *)
Theorem Master_cleanup_failure_only_logged
  (fatal : option string) (status : WaitStatus) (cleanup : option string) :
  filter (fun a => negb (is_Errorf a)) (Master_finish fatal status cleanup)
    = Master_finish fatal status None /\
  (forall msg, fatal = Some msg ->
     Master_finish fatal status cleanup =
       (CleanupContainer fatal status :: cleanup_log cleanup ++ [Fatalf msg])%list).
Proof.
  split.
  - unfold Master_finish.
    destruct cleanup, fatal; cbn;
      destruct (Signaled status); cbn; try reflexivity;
      destruct (Exited status); reflexivity.
  - intros msg ->. reflexivity.
Qed.

Lemma Master_cleanup_failure_only_logged_witness :
  Master_finish (Some "container creation failed: no space") 0 (Some "busy") =
    [CleanupContainer (Some "container creation failed: no space") 0;
     Errorf "container cleanup failed: busy";
     Fatalf "container creation failed: no space"].
Proof.
  exact (proj2 (Master_cleanup_failure_only_logged
                  (Some "container creation failed: no space") 0 (Some "busy"))
           _ eq_refl).
Defined.

(** ** starter: the signal channel *)

Lemma deliver_queued (h : handler) (s : Signal) :
  handler_inv h ->
  queued (deliver h s) =
    if (List.length (queued h) <? 2)%nat then (queued h ++ [s])%list
    else queued h.
Proof.
  intros (Hcap & Hsigs & _). unfold deliver, wants, queued in *.
  rewrite Hsigs, Hcap.
  destruct (List.length (chan_buf (h_chan h)) <? 2)%nat; reflexivity.
Qed.

Lemma arrivals_keep_first_two (sigs : list Signal) :
  forall h, handler_inv h ->
    queued (fold_left chan_step (map Incoming sigs) h)
    = firstn 2 (queued h ++ sigs).
Proof.
  induction sigs as [| s sigs IH]; intros h Hinv.
  - cbn [map fold_left]. rewrite app_nil_r. destruct Hinv as (_ & _ & Hlen).
    symmetry. apply firstn_all2. exact Hlen.
  - cbn [map fold_left chan_step].
    rewrite IH by (apply (handler_inv_step h (Incoming s)), Hinv).
    rewrite (deliver_queued h s Hinv).
    destruct Hinv as (_ & _ & Hlen).
    destruct (Nat.ltb_spec (List.length (queued h)) 2) as [Hlt | Hge].
    + rewrite <- app_assoc. reflexivity.
    + rewrite !firstn_app.
      replace (2 - List.length (queued h))%nat with 0%nat by lia.
      reflexivity.
Qed.

(** X7.  While nothing is taken from the channel, the signals waiting in
    it are the first two that arrived: every later signal is lost. *)
Theorem Master_signals_keep_first_two (sigs : list Signal) :
  queued (after (map Incoming sigs)) = firstn 2 sigs.
Proof.
  unfold after. rewrite arrivals_keep_first_two.
  - reflexivity.
  - repeat split; cbn; lia.
Qed.

End StarterFurther.

(** ** rpc: snapshots of snapshots *)

Section RpcFurther.

Import Rpc.

Lemma FileInfo_of_stamped_snapshot
  (A : Type) (I : OsFileInfo A) (src : A) (t0 t1 : Time) :
  IsZero (ModTime src t0) = false ->
  FileInfo (FileInfo src t0) t1 = FileInfo src t0.
Proof.
  intros Hz. unfold FileInfo at 1. cbn.
  unfold fileInfo_Name, fileInfo_Size, fileInfo_Mode, fileInfo_ModTime,
    fileInfo_Sys. cbn. rewrite Hz. reflexivity.
Qed.

(** X8.  Taking the snapshot of a snapshot gives the same snapshot when
    the captured modification time is not the zero time; when it is the
    zero time the second snapshot differs: it captures the clock reading
    of its own construction. *)
Theorem FileInfo_of_snapshot
  (A : Type) (I : OsFileInfo A) (src : A) (t0 t1 : Time) :
  (IsZero (ModTime src t0) = false ->
   FileInfo (FileInfo src t0) t1 = FileInfo src t0) /\
  (IsZero (ModTime src t0) = true ->
   FileInfo (FileInfo src t0) t1 =
     {| N := Name src; S := Size src; M := Mode src; T := t1; Sy := Sys src |}).
Proof.
  split; intros Hz.
  - apply FileInfo_of_stamped_snapshot, Hz.
  - unfold FileInfo at 1. cbn.
    unfold fileInfo_Name, fileInfo_Size, fileInfo_Mode, fileInfo_ModTime,
      fileInfo_Sys. cbn. rewrite Hz. reflexivity.
Qed.

Lemma FileInfo_of_snapshot_witness :
  FileInfo (FileInfo stat_stamped zeroTime) (mkTime 9 9)
    = FileInfo stat_stamped zeroTime /\
  T (FileInfo (FileInfo stat_unstamped zeroTime) (mkTime 9 9)) = mkTime 9 9.
Proof.
  split.
  - exact (proj1 (FileInfo_of_snapshot _ _ stat_stamped zeroTime (mkTime 9 9))
             eq_refl).
  - exact (f_equal T
             (proj2 (FileInfo_of_snapshot _ _ stat_unstamped zeroTime
                       (mkTime 9 9))
                (eq_refl : IsZero (ModTime stat_unstamped zeroTime) = true))).
Defined.

(** X9.  [DirEntry] hands back the error of [Info] when [Info] fails.
    Otherwise its snapshot carries the name and the type bits of the
    entry, tells whether it is a directory from those type bits, and its
    own [Info] never fails: it returns the [FileInfo] snapshot taken at
    construction.  When the captured modification time is not the zero
    time, the snapshot of the snapshot is the snapshot itself. *)
Theorem DirEntry_snapshot (A : Type) (I : FsDirEntry A) (en : A) (now : Time) :
  (forall err, de_Info en = inr err -> DirEntry en now = inr err) /\
  (forall fi, de_Info en = inl fi ->
     exists d,
       DirEntry en now = inl d /\
       de_Name d = de_Name en /\
       de_Type d = de_Type en /\
       de_IsDir d = FileMode_IsDir (de_Type en) /\
       de_Info d
         = inl (packFileInfo fileInfo fileInfo_OsFileInfo (snapshot_of fi now)) /\
       (IsZero (T (snapshot_of fi now)) = false ->
        forall now', DirEntry d now' = inl d)).
Proof.
  split.
  - intros err Herr. unfold DirEntry. rewrite Herr. reflexivity.
  - intros fi Hfi. unfold DirEntry at 1. rewrite Hfi.
    eexists. split; [reflexivity |].
    repeat split.
    intros Hz now'. unfold DirEntry. cbn. unfold dirEntry_Name, dirEntry_Type.
    cbn. do 3 f_equal.
    apply (FileInfo_of_stamped_snapshot (fi_carrier fi) (fi_methods fi)
             (fi_value fi) now now').
    exact Hz.
Qed.

Lemma DirEntry_snapshot_witness :
  DirEntry entry_gone zeroTime = inr "lstat lock: no such file or directory" /\
  exists d,
    DirEntry entry_passwd zeroTime = inl d /\
    de_Name d = "passwd" /\
    forall now', DirEntry d now' = inl d.
Proof.
  split.
  - exact (proj1 (DirEntry_snapshot osDirEntry osDirEntry_FsDirEntry entry_gone zeroTime) _ eq_refl).
  - destruct (proj2 (DirEntry_snapshot osDirEntry osDirEntry_FsDirEntry entry_passwd zeroTime)
                (packFileInfo fileStat fileStat_OsFileInfo stat_stamped)
                eq_refl)
      as (d & Hd & Hname & _ & _ & _ & Hagain).
    exists d. split; [exact Hd |]. split; [exact Hname |].
    apply Hagain. reflexivity.
Defined.

End RpcFurther.

(** ** user: the original user *)

Section UserFurther.

Import User.

(** X10.  Once [SetCurrentOriginal] has stored a user, [CurrentOriginal]
    returns that user whatever the host-uid and database lookups would
    answer, the last user stored winning.  Storing nil empties the cell
    again: [CurrentOriginal] then hands back the error of the host-uid
    lookup when that fails and otherwise the answer of the database for
    the host uid. *)
Theorem CurrentOriginal_after_SetCurrentOriginal (env : Env) (cell : Cell) :
  (forall u, CurrentOriginal env (SetCurrentOriginal (Some u) cell) = inl u) /\
  (forall u u',
     CurrentOriginal env
       (SetCurrentOriginal (Some u') (SetCurrentOriginal (Some u) cell))
     = inl u') /\
  (forall u err,
     namespaces_HostUID env = inr err ->
     CurrentOriginal env
       (SetCurrentOriginal None (SetCurrentOriginal (Some u) cell)) = inr err) /\
  (forall u uid,
     namespaces_HostUID env = inl uid ->
     CurrentOriginal env
       (SetCurrentOriginal None (SetCurrentOriginal (Some u) cell))
     = GetPwUID env uid).
Proof.
  repeat split; intros; unfold CurrentOriginal, SetCurrentOriginal;
    try reflexivity;
    match goal with H : namespaces_HostUID _ = _ |- _ => rewrite H end;
    reflexivity.
Qed.

Lemma CurrentOriginal_after_SetCurrentOriginal_witness :
  CurrentOriginal unmapped_env (SetCurrentOriginal (Some root) None) = inl root /\
  CurrentOriginal unmapped_env
    (SetCurrentOriginal None (SetCurrentOriginal (Some root) None))
  = inr "failed to parse uid_map".
Proof.
  split.
  - exact (proj1 (CurrentOriginal_after_SetCurrentOriginal unmapped_env None)
             root).
  - exact (proj1 (proj2 (proj2
             (CurrentOriginal_after_SetCurrentOriginal unmapped_env None)))
             root _ eq_refl).
Defined.

End UserFurther.

(** ** crypt: what a run adds to the trace *)

Section CryptFrames.

Variable env : Env.

Lemma grows_refl P s : grows P s s.
Proof. exists []. split; reflexivity. Qed.

Lemma grows_trans P s1 s2 s3 : grows P s1 s2 -> grows P s2 s3 -> grows P s1 s3.
Proof.
  intros (e1 & H1 & F1) (e2 & H2 & F2). exists (e2 ++ e1)%list.
  rewrite H2, H1, app_assoc, forallb_app, F1, F2. split; reflexivity.
Qed.

Lemma grows_record P ev s : P ev = true -> grows P s (record ev s).
Proof.
  intros HP. exists [ev]. cbn. rewrite HP. split; reflexivity.
Qed.

Lemma grows_same P s s' : trace s' = trace s -> grows P s s'.
Proof. intros H. exists []. split; [exact H | reflexivity]. Qed.

Lemma keeps_ret {A} P (a : A) : keeps P (ret a).
Proof. intros s r s' H. injection H as _ <-. apply grows_refl. Qed.

Lemma keeps_spin {A} P : keeps P (@spin A).
Proof. intros s r s' H. discriminate. Qed.

Lemma keeps_bind {A B} P (m : M A) (f : A -> M B) :
  keeps P m -> (forall a, keeps P (f a)) -> keeps P (bind m f).
Proof.
  intros Hm Hf s r s' H. unfold bind in H.
  destruct (m s) as [[a s1] |] eqn:Hms; [| discriminate].
  eapply grows_trans; [eapply Hm, Hms | eapply Hf, H].
Qed.

Lemma keeps_emit P ev : P ev = true -> keeps P (emit ev).
Proof.
  intros HP s r s' H. injection H as _ <-. apply grows_record, HP.
Qed.

Lemma keeps_CombinedOutput P cmd :
  P (EvExec cmd) = true -> keeps P (CombinedOutput env cmd).
Proof.
  intros HP s r s' H. injection H as _ <-.
  eapply grows_trans; [apply (grows_same P s (tick_exec s)); reflexivity |].
  apply grows_record, HP.
Qed.

Lemma keeps_Stat P path :
  P (EvStat path) = true -> keeps P (Stat env path).
Proof.
  intros HP s r s' H. injection H as _ <-.
  eapply grows_trans; [apply (grows_same P s (tick_stat s)); reflexivity |].
  apply grows_record, HP.
Qed.

Lemma keeps_NewRandom P : keeps P (NewRandom env).
Proof.
  intros s r s' H. injection H as _ <-. apply grows_same. reflexivity.
Qed.

Lemma keeps_sys_Read P fd n :
  (forall data, P (EvRead fd data) = true) -> keeps P (sys_Read env fd n).
Proof.
  intros HP s r s' H. unfold sys_Read in H.
  destruct (syscall_Read env (n_read s) fd); injection H as _ <-.
  - eapply grows_trans; [apply (grows_same P s (tick_read s)); reflexivity |].
    apply grows_record, HP.
  - apply grows_same. reflexivity.
Qed.

Lemma keeps_sys_Write P fd data :
  (forall d, P (EvWrite fd d) = true) -> keeps P (sys_Write env fd data).
Proof.
  intros HP s r s' H. unfold sys_Write in H.
  destruct (syscall_Write env (n_write s) fd data); injection H as _ <-.
  - eapply grows_trans; [apply (grows_same P s (tick_write s)); reflexivity |].
    apply grows_record, HP.
  - apply grows_same. reflexivity.
Qed.

Ltac keeps_auto :=
  repeat first
    [ apply keeps_ret
    | apply keeps_spin
    | assumption
    | apply keeps_CombinedOutput; reflexivity
    | apply keeps_Stat; reflexivity
    | apply keeps_NewRandom
    | apply keeps_sys_Read; intros; reflexivity
    | apply keeps_sys_Write; intros; reflexivity
    | apply keeps_emit; reflexivity
    | apply keeps_bind; [| intros]
    | match goal with
      | |- keeps _ (match ?x with _ => _ end) => destruct x
      | |- keeps _ (if ?b then _ else _) => destruct b
      end ].

Lemma keeps_checkCryptsetupVersion cryptsetup :
  keeps runs_or_looks (checkCryptsetupVersion env cryptsetup).
Proof. unfold checkCryptsetupVersion. keeps_auto. Qed.

Lemma keeps_waitDevice name fuel :
  forall attempt, keeps runs_or_looks (waitDevice env fuel name attempt).
Proof.
  induction fuel as [| fuel IH]; intros attempt; cbn [waitDevice].
  - apply keeps_spin.
  - unfold Sleep. keeps_auto. apply IH.
Qed.

Lemma keeps_openLoop fuel cryptsetup key path left :
  keeps runs_or_looks (openLoop env fuel left cryptsetup key path).
Proof.
  induction left as [| left IH]; cbn [openLoop].
  - apply keeps_ret.
  - unfold getNextAvailableCryptDevice.
    pose proof (keeps_checkCryptsetupVersion cryptsetup).
    pose proof (keeps_waitDevice).
    keeps_auto; auto.
Qed.

Lemma keeps_writeBuffer destFd dest buffer numRead fuel :
  forall n w,
    keeps reads_or_writes (writeBuffer env fuel destFd dest buffer numRead n w).
Proof.
  induction fuel as [| fuel IH]; intros n w; cbn [writeBuffer].
  - apply keeps_spin.
  - keeps_auto. apply IH.
Qed.

Lemma keeps_copyLoop sourceFd destFd source dest size fuel :
  forall w,
    keeps reads_or_writes
      (copyLoop env fuel sourceFd destFd source dest size w).
Proof.
  induction fuel as [| fuel IH]; intros w; cbn [copyLoop].
  - apply keeps_spin.
  - pose proof (keeps_writeBuffer destFd dest).
    keeps_auto; auto.
Qed.

End CryptFrames.

(** ** crypt: the lock, the bounds and the verdicts of [Open] *)

Ltac bound_done :=
  cbn [n_uuid n_exec n_stat trace sleeps record tick_uuid tick_exec
       tick_stat] in *;
  repeat split; lia.

Section CryptFurther.

Variable env : Env.

(** X11.  Whenever [Open] returns, either the lock on /dev/mapper could
    not be taken and nothing was done, or the lock was taken first and
    released last, and everything in between was running a command,
    looking for the mapper device or sleeping. *)
Theorem Open_holds_lock fuel key path s r s' :
  Open env fuel key path s = Some (r, s') ->
  (r = Err (New "unable to acquire lock on /dev/mapper") /\ s' = s) \/
  (exists fd mid,
     lock_Exclusive env "/dev/mapper" = Fine fd /\
     trace s' = (EvRelease fd :: mid ++ EvLock "/dev/mapper" fd :: trace s)%list /\
     forallb runs_or_looks mid = true).
Proof.
  unfold Open. unfold_calls. intros H.
  destruct (lock_Exclusive env "/dev/mapper") as [fd | m].
  - right. exists fd.
    destruct (bin_FindBin env "cryptsetup") as [cryptsetup | m].
    + destruct (fs_IsOwner env cryptsetup 0); cbn [negb] in H.
      * destruct (openLoop env fuel 3 cryptsetup key path
                    (record (EvLock "/dev/mapper" fd) s))
          as [[r1 s1] |] eqn:Hloop; [| discriminate].
        injection H as <- <-.
        destruct (keeps_openLoop env fuel cryptsetup key path 3 _ _ _ Hloop)
          as (mid & Htrace & Hmid).
        exists mid. split; [reflexivity |].
        split; [cbn; rewrite Htrace; reflexivity | exact Hmid].
      * injection H as <- <-. exists []. repeat split.
    + injection H as <- <-. exists []. repeat split.
  - left. injection H as <- <-. split; reflexivity.
Qed.

(** X12.  [CloseCryptDevice] either fails before touching anything (the
    binary is not found or not owned by root, or the lock cannot be
    taken), or it takes the lock, runs exactly [cryptsetup close <path>]
    with uid and gid 0, releases the lock and returns what the command
    returned. *)
Theorem CloseCryptDevice_sequence path s :
  exists r s',
    CloseCryptDevice env path s = Some (r, s') /\
    ((r <> None /\ s' = s) \/
     exists cryptsetup fd,
       bin_FindBin env "cryptsetup" = Fine cryptsetup /\
       fs_IsOwner env cryptsetup 0 = true /\
       let cmd := with_Credential (Command cryptsetup ["close"; path]) 0 0 in
       trace s' =
         (EvRelease fd :: EvExec cmd :: EvLock "/dev/mapper" fd :: trace s)%list /\
       r = lift_err (snd (exec_CombinedOutput env (n_exec s) cmd))).
Proof.
  unfold CloseCryptDevice. unfold_calls.
  destruct (bin_FindBin env "cryptsetup") as [cryptsetup | m] eqn:Hbin;
    [| do 2 eexists; split; [reflexivity | left; split; [discriminate | reflexivity]]].
  destruct (fs_IsOwner env cryptsetup 0) eqn:Hown; cbn [negb];
    [| do 2 eexists; split; [reflexivity | left; split; [discriminate | reflexivity]]].
  destruct (lock_Exclusive env "/dev/mapper") as [fd | m];
    [| do 2 eexists; split; [reflexivity | left; split; [discriminate | reflexivity]]].
  crypt_simpl.
  destruct (exec_CombinedOutput env (n_exec s)
              (with_Credential (Command cryptsetup ["close"; path]) 0 0))
    as [out [e |]] eqn:Hrun;
    cbn; (do 2 eexists; split; [reflexivity |]); right;
    exists cryptsetup, fd; repeat split;
    try assumption; rewrite Hrun; reflexivity.
Qed.

Lemma total_app (l1 l2 : list Z) : total (l1 ++ l2) = total l1 + total l2.
Proof.
  unfold total. induction l1 as [| x l1 IH]; cbn; [reflexivity |].
  rewrite IH. lia.
Qed.

Lemma backoff_window (a m : nat) :
  (a + m <= 8)%nat ->
  total (map backoff (seq a m)) <= 25500 * Millisecond.
Proof.
  intros H.
  do 9 (destruct a as [| a];
        [do 9 (destruct m as [| m];
               [first [exfalso; lia
                      | apply Z.leb_le; vm_compute; reflexivity] |]); lia |]).
  lia.
Qed.

Lemma waitDevice_bounded name fuel :
  forall (a : nat) s r s',
    (a <= 8)%nat ->
    waitDevice env fuel name (Z.of_nat a) s = Some (r, s') ->
    n_exec s' = n_exec s /\ n_uuid s' = n_uuid s /\
    exists m, (a + m <= 8)%nat /\
      sleeps (trace s') = (sleeps (trace s) ++ map backoff (seq a m))%list.
Proof.
  induction fuel as [| fuel IH]; intros a s r s' Ha H; [discriminate |].
  cbn [waitDevice] in H. unfold Stat, Sleep, emit, bind, ret in H.
  destruct (backoff_schedule a Ha) as [Hdelay Hcap].
  destruct (os_Stat env (n_stat s) (mapper name)).
  - injection H as <- <-. repeat split. exists 0%nat.
    cbn. rewrite app_nil_r. split; [lia | reflexivity].
  - destruct (25500 * Millisecond <=? delaySoFar (Z.of_nat a)) eqn:Hgive.
    + injection H as <- <-. repeat split. exists 0%nat.
      cbn. rewrite app_nil_r. split; [lia | reflexivity].
    + assert (a <> 8%nat) by (intros ->; destruct Hcap as [_ Hc];
                               specialize (Hc eq_refl); discriminate).
      rewrite Hdelay in H.
      replace (Z.of_nat a + 1) with (Z.of_nat (Datatypes.S a)) in H by lia.
      apply IH in H; [| lia].
      destruct H as (Hx & Hu & m & Hm & Hsl).
      cbn in Hx, Hu, Hsl.
      split; [exact Hx |]. split; [exact Hu |].
      exists (Datatypes.S m). split; [lia |].
      rewrite Hsl, <- app_assoc. reflexivity.
  - injection H as <- <-. repeat split. exists 0%nat.
    cbn. rewrite app_nil_r. split; [lia | reflexivity].
Qed.

Lemma checkCryptsetupVersion_bounded cryptsetup s r s' :
  checkCryptsetupVersion env cryptsetup s = Some (r, s') ->
  (n_exec s' <= n_exec s + 1)%nat /\ n_uuid s' = n_uuid s /\
  sleeps (trace s') = sleeps (trace s).
Proof.
  unfold checkCryptsetupVersion. unfold_calls. intros H.
  destruct (String.eqb cryptsetup "").
  - injection H as <- <-. repeat split. lia.
  - destruct (exec_CombinedOutput env (n_exec s)
                (Command cryptsetup ["--version"])) as [out [e |]];
      cbn in H; [| destruct (Contains out "cryptsetup 2."); cbn in H];
      injection H as <- <-; cbn; repeat split; lia.
Qed.

Lemma openLoop_bounded fuel cryptsetup key path left :
  forall s r s',
    openLoop env fuel left cryptsetup key path s = Some (r, s') ->
    (n_uuid s' <= n_uuid s + left)%nat /\
    (n_exec s' <= n_exec s + left + 1)%nat /\
    total (sleeps (trace s')) <= total (sleeps (trace s)) + 25500 * Millisecond.
Proof.
  assert (Hms : 0 <= 25500 * Millisecond)
    by (apply Z.leb_le; vm_compute; reflexivity).
  induction left as [| left IH]; intros s r s' H; cbn [openLoop] in H.
  - injection H as <- <-. bound_done.
  - unfold getNextAvailableCryptDevice, NewRandom, CombinedOutput, bind, ret,
      lift in H.
    destruct (uuid_NewRandom env (n_uuid s)) as [name | m].
    2: { injection H as <- <-. bound_done. }
    destruct (String.eqb name "").
    { injection H as <- <-. bound_done. }
    destruct (exec_CombinedOutput env (n_exec (tick_uuid s))
                (open_Cmd cryptsetup key path name)) as [out [e |]];
      cbn [snd fst lift_err] in H.
    + destruct (Contains out "Device already exists").
      * apply IH in H. bound_done.
      * destruct (checkCryptsetupVersion env cryptsetup _)
          as [[verr s2] |] eqn:Hversion; [| discriminate].
        apply checkCryptsetupVersion_bounded in Hversion.
        cbn in Hversion. destruct Hversion as (Hx & Hu & Hsl).
        assert (s' = s2) as ->.
        { destruct (is_ErrUnsupportedCryptsetupVersion verr);
            [| destruct (Contains out "No key available")];
            injection H as _ <-; reflexivity. }
        rewrite Hsl. bound_done.
    + destruct (waitDevice env fuel name 0 _) as [[werr s2] |] eqn:Hwait;
        [| discriminate].
      apply (waitDevice_bounded name fuel 0) in Hwait; [| lia].
      cbn in Hwait. destruct Hwait as (Hx & Hu & m & Hm & Hsl).
      assert (s' = s2) as ->.
      { destruct werr; injection H as _ <-; reflexivity. }
      rewrite Hsl, total_app.
      pose proof (backoff_window 0 m Hm).
      bound_done.
Qed.

(** X13.  Whenever [Open] returns it has drawn at most three mapper
    names, run at most four commands (three attempts and one version
    check) and slept at most 25.5 s in all. *)
Theorem Open_bounded fuel key path s r s' :
  Open env fuel key path s = Some (r, s') ->
  (n_uuid s' <= n_uuid s + 3)%nat /\
  (n_exec s' <= n_exec s + 4)%nat /\
  total (sleeps (trace s')) <= total (sleeps (trace s)) + 25500 * Millisecond.
Proof.
  assert (Hms : 0 <= 25500 * Millisecond)
    by (apply Z.leb_le; vm_compute; reflexivity).
  unfold Open. unfold_calls. intros H.
  destruct (lock_Exclusive env "/dev/mapper") as [fd | m].
  - destruct (bin_FindBin env "cryptsetup") as [cryptsetup | m].
    + destruct (fs_IsOwner env cryptsetup 0); cbn [negb] in H.
      * destruct (openLoop env fuel 3 cryptsetup key path _)
          as [[r1 s1] |] eqn:Hloop; [| discriminate].
        injection H as <- <-.
        apply openLoop_bounded in Hloop. bound_done.
      * injection H as <- <-. bound_done.
    + injection H as <- <-. bound_done.
  - injection H as <- <-. bound_done.
Qed.

(** X14.  When an attempt of [Open] fails for another reason than a
    name collision and [cryptsetup --version] runs, the error returned is
    decided in this order: the unsupported-version error when the version
    reported is not 2.x, even if the output speaks of a missing key; else
    the invalid-passphrase error when the output contains "No key
    available"; else an error that quotes the output of the failed
    command, followed by "<nil>" because the version check succeeded. *)
Theorem Open_failure_verdict fuel key path s fd cryptsetup j name out e vout :
  lock_Exclusive env "/dev/mapper" = Fine fd ->
  bin_FindBin env "cryptsetup" = Fine cryptsetup ->
  fs_IsOwner env cryptsetup 0 = true ->
  String.eqb cryptsetup "" = false ->
  (j < 3)%nat ->
  (forall i, (i < j)%nat ->
     collides_at env cryptsetup key path (n_uuid s + i) (n_exec s + i) = true) ->
  uuid_NewRandom env (n_uuid s + j) = Fine name ->
  String.eqb name "" = false ->
  exec_CombinedOutput env (n_exec s + j) (open_Cmd cryptsetup key path name)
    = (out, Some e) ->
  Contains out "Device already exists" = false ->
  exec_CombinedOutput env (Datatypes.S (n_exec s + j))
    (Command cryptsetup ["--version"]) = (vout, None) ->
  exists s',
    Open env fuel key path s
      = Some (Err (if negb (Contains vout "cryptsetup 2.")
                   then ErrUnsupportedCryptsetupVersion
                   else if Contains out "No key available"
                        then ErrInvalidPassphrase
                        else New ("cryptsetup open failed: " ++ out ++ ": <nil>")),
              s') /\
    n_exec s' = (n_exec s + j + 2)%nat.
Proof.
  intros Hlock Hbin Hown Hcs Hj Hcoll Huuid Hname Hrun Hexists Hversion.
  rewrite (Open_enters_loop env fuel key path s fd cryptsetup Hlock Hbin Hown).
  destruct (openLoop_collisions env fuel cryptsetup key path j (3 - j)
              (record (EvLock "/dev/mapper" fd) s) Hcoll)
    as (s1 & Hloop & Hu & Hx & _).
  replace (j + (3 - j))%nat with 3%nat in Hloop by lia. rewrite Hloop.
  cbn [record n_uuid n_exec] in Hu, Hx.
  replace (3 - j)%nat with (Datatypes.S (2 - j)) by lia.
  cbn [openLoop].
  unfold getNextAvailableCryptDevice, checkCryptsetupVersion. unfold_calls.
  rewrite Hu, Huuid, Hname. crypt_simpl. rewrite Hx, Hrun.
  crypt_simpl. rewrite Hexists, Hcs. crypt_simpl. rewrite Hx, Hversion.
  crypt_simpl.
  destruct (Contains vout "cryptsetup 2."); crypt_simpl;
    [destruct (Contains out "No key available"); crypt_simpl |];
    (eexists; split; [reflexivity |]); cbn; lia.
Qed.

End CryptFurther.

Lemma Open_holds_lock_witness :
  exists fd mid s',
    Open Scenario.collide_twice_host 9 Scenario.key "/dev/loop0" init
      = Some (Ok "886313e1-3b8a-4372-9b90-0c9aee199e5d", s') /\
    trace s' = (EvRelease fd :: mid ++ [EvLock "/dev/mapper" fd])%list /\
    forallb runs_or_looks mid = true.
Proof.
  destruct (Open Scenario.collide_twice_host 9 Scenario.key "/dev/loop0" init)
    as [[r s'] |] eqn:Hrun; [| vm_compute in Hrun; discriminate].
  destruct (Open_holds_lock Scenario.collide_twice_host 9 Scenario.key
              "/dev/loop0" init r s' Hrun)
    as [[_ Hs] | (fd & mid & _ & Htrace & Hmid)].
  - subst s'. vm_compute in Hrun. discriminate.
  - exists fd, mid, s'. split; [| split; assumption].
    f_equal. f_equal. vm_compute in Hrun. congruence.
Defined.

Lemma Open_bounded_witness :
  exists r s',
    Open Scenario.no_device_host 9 Scenario.key "/dev/loop0" init = Some (r, s') /\
    (n_uuid s' <= 3)%nat /\ (n_exec s' <= 4)%nat /\
    total (sleeps (trace s')) <= 25500 * Millisecond.
Proof.
  destruct (Open Scenario.no_device_host 9 Scenario.key "/dev/loop0" init)
    as [[r s'] |] eqn:Hrun; [| vm_compute in Hrun; discriminate].
  exists r, s'. split; [reflexivity |].
  exact (Open_bounded Scenario.no_device_host 9 Scenario.key "/dev/loop0"
           init r s' Hrun).
Defined.

Lemma Open_failure_verdict_witness :
  exists s',
    Open Scenario.not_luks_host 0 Scenario.key "/dev/loop0" init
      = Some (Err (New ("cryptsetup open failed: "
                        ++ "Device /dev/loop0 is not a valid LUKS device."
                        ++ ": <nil>")), s') /\
    n_exec s' = 2%nat.
Proof.
  exact (Open_failure_verdict Scenario.not_luks_host 0 Scenario.key
           "/dev/loop0" init 3 "/usr/sbin/cryptsetup" 0
           "1b4e28ba-2fa1-41d2-883f-0016d3cca427"
           "Device /dev/loop0 is not a valid LUKS device." "exit status 1"
           "cryptsetup 2.6.1"
           eq_refl eq_refl eq_refl eq_refl ltac:(lia)
           ltac:(intros i Hi; lia)
           eq_refl eq_refl eq_refl eq_refl eq_refl).
Defined.

(** ** crypt: copying *)

Section CopyFurther.

Variable env : Env.

(** X15.  Whenever [copyDeviceContents] returns, every descriptor it
    opened has been closed: nothing was opened when the source cannot be
    opened; the source was opened and closed when the destination cannot
    be opened; otherwise both were opened, only reads and writes happened
    in between, and the destination was closed before the source. *)
Theorem copyDeviceContents_closes_descriptors fuel source dest size s r s' :
  copyDeviceContents env fuel source dest size s = Some (r, s') ->
  (r = Some (New ("unable to open the file " ++ source)) /\ s' = s) \/
  (exists sourceFd,
     syscall_Open env source O_RDONLY = Fine sourceFd /\
     r = Some (New ("unable to open the file: " ++ dest)) /\
     trace s' = (EvClose sourceFd :: EvOpen source sourceFd :: trace s)%list) \/
  (exists sourceFd destFd mid,
     syscall_Open env source O_RDONLY = Fine sourceFd /\
     syscall_Open env dest O_WRONLY = Fine destFd /\
     trace s' =
       (EvClose sourceFd :: EvClose destFd :: mid
        ++ EvOpen dest destFd :: EvOpen source sourceFd :: trace s)%list /\
     forallb reads_or_writes mid = true).
Proof.
  intros H.
  destruct (syscall_Open env source O_RDONLY) as [sourceFd | m] eqn:Hsrc.
  - destruct (syscall_Open env dest O_WRONLY) as [destFd | m] eqn:Hdst.
    + right. right.
      rewrite (copyDeviceContents_runs_loop env fuel source dest size s
                 sourceFd destFd Hsrc Hdst) in H.
      destruct (copyLoop env fuel sourceFd destFd source dest size 0 _)
        as [[r1 s1] |] eqn:Hloop; [| discriminate].
      injection H as <- <-.
      destruct (keeps_copyLoop env sourceFd destFd source dest size fuel 0
                  _ _ _ Hloop) as (mid & Htrace & Hmid).
      exists sourceFd, destFd, mid.
      repeat split; [cbn; rewrite Htrace; reflexivity | exact Hmid].
    + right. left. exists sourceFd.
      unfold copyDeviceContents, sys_Open, sys_Close, defer, bind, ret, emit
        in H.
      rewrite Hsrc, Hdst in H. injection H as <- <-.
      repeat split.
  - left.
    unfold copyDeviceContents, sys_Open, sys_Close, defer, bind, ret, emit
      in H.
    rewrite Hsrc in H. injection H as <- <-. split; reflexivity.
Qed.

Lemma supplied_len_snoc fd n :
  forall k0,
    supplied_len env fd k0 (Datatypes.S n)
    = supplied_len env fd k0 n
      + Z.of_nat (List.length (chunk env fd (k0 + n))).
Proof.
  unfold supplied_len.
  induction n as [| n IH]; intros k0.
  - rewrite supplied_S. cbn. rewrite Nat.add_0_r, app_nil_r. lia.
  - rewrite supplied_S, length_app, Nat2Z.inj_add, IH.
    rewrite (supplied_S env fd k0 n), length_app, Nat2Z.inj_add.
    replace (Datatypes.S k0 + n)%nat with (k0 + Datatypes.S n)%nat by lia.
    lia.
Qed.

(** X16.  With source and destination opened, reads that do not fail and
    writes that do not fail and make progress, a [copyDeviceContents] that
    returns has appended to the destination whole buffers read from the
    source: nothing, without reading, when [size] is not positive; at
    least [size] bytes and fewer than [size] plus the buffer size of 10240
    otherwise. *)
Theorem copyDeviceContents_written_bound
  fuel source dest size s sourceFd destFd r s' :
  syscall_Open env source O_RDONLY = Fine sourceFd ->
  syscall_Open env dest O_WRONLY = Fine destFd ->
  reads_succeed env sourceFd ->
  writes_progress env destFd ->
  size <= int64_max - buffer_cap ->
  copyDeviceContents env fuel source dest size s = Some (r, s') ->
  exists n,
    written destFd (trace s')
      = (written destFd (trace s) ++ supplied env sourceFd (n_read s) n)%list /\
    (size <= 0 -> n = 0%nat /\ n_read s' = n_read s) /\
    (0 < size ->
     size <= supplied_len env sourceFd (n_read s) n < size + buffer_cap).
Proof.
  intros Hsrc Hdst Hreads Hwrites Hsize Hrun.
  rewrite (copyDeviceContents_runs_loop env fuel source dest size s
             sourceFd destFd Hsrc Hdst) in Hrun.
  set (s0 := record (EvOpen dest destFd) (record (EvOpen source sourceFd) s))
    in *.
  destruct (copyLoop env fuel sourceFd destFd source dest size 0 s0)
    as [[r1 s1] |] eqn:Hloop; [| discriminate].
  injection Hrun as <- <-.
  destruct (copyLoop_returns env source dest sourceFd destFd size
              Hreads Hwrites Hsize fuel 0 s0 r1 s1 ltac:(lia) Hloop)
    as (-> & n & Hn & Hmin & Hwritten).
  cbn [s0 n_read record trace written] in Hn, Hmin, Hwritten.
  exists n. split; [exact Hwritten |]. split.
  - intros Hle.
    destruct fuel as [| fuel]; [discriminate |].
    cbn [copyLoop] in Hloop.
    destruct (Z.ltb_spec 0 size); [lia |].
    injection Hloop as <-.
    split; [| reflexivity].
    destruct n as [| n]; [reflexivity |].
    specialize (Hmin 0%nat ltac:(lia)). unfold supplied_len in Hmin.
    cbn in Hmin. lia.
  - intros Hpos. split; [lia |].
    destruct n as [| n].
    + unfold supplied_len in Hn. cbn in Hn. lia.
    + specialize (Hmin n ltac:(lia)).
      rewrite supplied_len_snoc.
      pose proof (chunk_length env sourceFd (n_read s + n)). lia.
Qed.

Lemma writeBuffer_stalls destFd dest buffer numRead :
  (forall k data, syscall_Write env k destFd data = Fine 0) ->
  numRead <= int64_max ->
  forall fuel n w s,
    0 <= n < numRead ->
    writeBuffer env fuel destFd dest buffer numRead n w s = None.
Proof.
  intros Hstall Hmax.
  induction fuel as [| fuel IH]; intros n w s Hn; [reflexivity |].
  cbn [writeBuffer].
  destruct (Z.ltb_spec n numRead); [| lia].
  unfold sys_Write, bind. rewrite Hstall.
  rewrite Z.add_0_r, (wrap64_id n) by lia.
  apply IH. exact Hn.
Qed.

(** X17.  When the destination takes no byte and reports no error,
    [copyDeviceContents] never returns once it has read a non-empty
    buffer: it offers the same bytes again for ever. *)
Theorem copyDeviceContents_stalls source dest size s sourceFd destFd data :
  syscall_Open env source O_RDONLY = Fine sourceFd ->
  syscall_Open env dest O_WRONLY = Fine destFd ->
  0 < size ->
  syscall_Read env (n_read s) sourceFd = Fine data ->
  data <> [] ->
  (forall k offered, syscall_Write env k destFd offered = Fine 0) ->
  forall fuel, copyDeviceContents env fuel source dest size s = None.
Proof.
  intros Hsrc Hdst Hsize Hread Hdata Hstall fuel.
  rewrite (copyDeviceContents_runs_loop env fuel source dest size s
             sourceFd destFd Hsrc Hdst).
  destruct fuel as [| fuel]; [reflexivity |].
  cbn [copyLoop].
  destruct (Z.ltb_spec 0 size); [| lia].
  unfold sys_Read, bind. cbn [n_read record]. rewrite Hread.
  rewrite writeBuffer_stalls; [reflexivity | exact Hstall | |].
  - rewrite length_firstn. unfold int64_max, buffer_cap. lia.
  - split; [lia |]. rewrite length_firstn.
    destruct data; [congruence |]. unfold buffer_cap. cbn [List.length]. lia.
Qed.

End CopyFurther.

Lemma copyDeviceContents_closes_descriptors_witness :
  exists r s',
    copyDeviceContents Scenario.four_byte_host 9 "image.sqfs" "/dev/mapper/x"
      3 init = Some (r, s') /\
    ((r = Some (New ("unable to open the file " ++ "image.sqfs")) /\ s' = init) \/
     (exists sourceFd,
        syscall_Open Scenario.four_byte_host "image.sqfs" O_RDONLY
          = Fine sourceFd /\
        r = Some (New ("unable to open the file: " ++ "/dev/mapper/x")) /\
        trace s' = [EvClose sourceFd; EvOpen "image.sqfs" sourceFd]) \/
     (exists sourceFd destFd mid,
        syscall_Open Scenario.four_byte_host "image.sqfs" O_RDONLY
          = Fine sourceFd /\
        syscall_Open Scenario.four_byte_host "/dev/mapper/x" O_WRONLY
          = Fine destFd /\
        trace s' =
          (EvClose sourceFd :: EvClose destFd :: mid
           ++ [EvOpen "/dev/mapper/x" destFd; EvOpen "image.sqfs" sourceFd])%list /\
        forallb reads_or_writes mid = true)).
Proof.
  destruct (copyDeviceContents Scenario.four_byte_host 9 "image.sqfs"
              "/dev/mapper/x" 3 init) as [[r s'] |] eqn:Hrun;
    [| vm_compute in Hrun; discriminate].
  exists r, s'. split; [reflexivity |].
  exact (copyDeviceContents_closes_descriptors Scenario.four_byte_host 9
           "image.sqfs" "/dev/mapper/x" 3 init r s' Hrun).
Defined.

Lemma copyDeviceContents_written_bound_witness :
  exists r s' n,
    copyDeviceContents Scenario.four_byte_host 9 "image.sqfs" "/dev/mapper/x"
      3 init = Some (r, s') /\
    written 5 (trace s') = supplied Scenario.four_byte_host 4 0 n /\
    3 <= supplied_len Scenario.four_byte_host 4 0 n < 3 + buffer_cap.
Proof.
  destruct (copyDeviceContents Scenario.four_byte_host 9 "image.sqfs"
              "/dev/mapper/x" 3 init) as [[r s'] |] eqn:Hrun;
    [| vm_compute in Hrun; discriminate].
  destruct (copyDeviceContents_written_bound Scenario.four_byte_host 9
              "image.sqfs" "/dev/mapper/x" 3 init 4 5 r s' eq_refl eq_refl
              (proj1 four_byte_host_io) (proj2 four_byte_host_io)
              ltac:(vm_compute; discriminate) Hrun)
    as (n & Hwritten & _ & Hpos).
  exists r, s', n. split; [reflexivity |].
  split; [exact Hwritten | apply Hpos; lia].
Defined.

Lemma copyDeviceContents_stalls_witness :
  copyDeviceContents Scenario.stalled_host 1000 "image.sqfs" "/dev/mapper/x"
    3 init = None /\
  (forall fuel,
     copyDeviceContents Scenario.stalled_host fuel "image.sqfs"
       "/dev/mapper/x" 3 init = None).
Proof.
  assert (H : forall fuel,
     copyDeviceContents Scenario.stalled_host fuel "image.sqfs"
       "/dev/mapper/x" 3 init = None).
  { apply (copyDeviceContents_stalls Scenario.stalled_host "image.sqfs"
             "/dev/mapper/x" 3 init 4 5 [Byte.x01; Byte.x02]);
      try reflexivity; try lia; try discriminate. }
  split; [apply H | exact H].
Defined.

(** ** crypt: [EncryptFilesystem] from end to end *)

Lemma wrap64_overflow (z : Z) :
  int64_max < z <= int64_max + 2 ^ 63 -> wrap64 z = z - 2 ^ 64.
Proof.
  unfold int64_max, wrap64. intros H.
  rewrite <- (Z.mod_add (z + 2 ^ 63) (-1) (2 ^ 64)) by lia.
  rewrite Z.mod_small by lia. lia.
Qed.

Lemma commands_grows s s' :
  grows reads_or_writes s s' ->
  commands (trace s') = commands (trace s) /\
  attached (trace s') = attached (trace s).
Proof.
  intros (evs & -> & Hevs).
  induction evs as [| ev evs IH]; [split; reflexivity |].
  cbn [forallb] in Hevs. apply andb_prop in Hevs. destruct Hevs as [Hev Hevs].
  destruct ev; try discriminate; cbn; apply IH, Hevs.
Qed.

Section EncryptFurther.

Variable env : Env.

Lemma writeBuffer_n_exec destFd dest buffer numRead fuel :
  forall n w s r s',
    writeBuffer env fuel destFd dest buffer numRead n w s = Some (r, s') ->
    n_exec s' = n_exec s.
Proof.
  induction fuel as [| fuel IH]; intros n w s r s' H; [discriminate |].
  cbn [writeBuffer] in H. unfold sys_Write, bind, ret in H.
  destruct (n <? numRead).
  - destruct (syscall_Write env (n_write s) destFd _).
    + apply IH in H. exact H.
    + injection H as _ <-. reflexivity.
  - injection H as _ <-. reflexivity.
Qed.

Lemma copyLoop_n_exec sourceFd destFd source dest size fuel :
  forall w s r s',
    copyLoop env fuel sourceFd destFd source dest size w s = Some (r, s') ->
    n_exec s' = n_exec s.
Proof.
  induction fuel as [| fuel IH]; intros w s r s' H; [discriminate |].
  cbn [copyLoop] in H. unfold sys_Read, bind, ret in H.
  destruct (w <? size).
  - destruct (syscall_Read env (n_read s) sourceFd).
    + destruct (writeBuffer env fuel destFd dest _ _ 0 w _)
        as [[[w' | e] s1] |] eqn:Hbuf; [| | discriminate].
      * apply IH in H. apply writeBuffer_n_exec in Hbuf.
        cbn in Hbuf. congruence.
      * injection H as _ <-. apply writeBuffer_n_exec in Hbuf. exact Hbuf.
    + injection H as _ <-. reflexivity.
  - injection H as _ <-. reflexivity.
Qed.

(** X18.  An image larger than the largest [int64] minus 16 MiB cannot
    be encrypted: the size of the device wraps around to a negative
    number, and [EncryptFilesystem] fails, at the latest when that size is
    converted to [uint64], before any loop device is attached and before
    any command is run. *)
Theorem EncryptFilesystem_oversized fuel path key tempdir s fSize :
  os_Stat env (n_stat s) path = StatOk fSize ->
  int64_max - 16 * 1024 * 1024 < fSize <= int64_max ->
  exists e s',
    EncryptFilesystem env fuel path key tempdir s = Some (Err e, s') /\
    attached (trace s') = attached (trace s) /\
    n_exec s' = n_exec s.
Proof.
  intros Hstat Hsize.
  assert (Hneg : (wrap64 (fSize + 16 * 1024 * 1024) <? 0) = true).
  { rewrite wrap64_overflow by (unfold int64_max in *; lia).
    apply Z.ltb_lt. unfold int64_max in *. lia. }
  unfold EncryptFilesystem, createLoop, safecast_ToUint64. unfold_calls.
  rewrite Hstat.
  destruct (os_CreateTemp env tempdir "crypt-") as [cryptF | m];
    [| cbn; eauto].
  destruct (os_Truncate env cryptF _); [cbn; eauto |].
  rewrite Hneg. cbn. eauto.
Qed.

(** X19.  When [EncryptFilesystem] has got as far as cryptsetup and the
    [luksFormat] command fails although the version is a supported one
    (or the version cannot be found out because [--version] fails too),
    the error returned quotes the temporary file and the output of
    [luksFormat]; the loop device attached for this invocation stays
    attached. *)
Theorem EncryptFilesystem_format_failure
  fuel path key tempdir s fSize cryptF maxLoopDev idx cryptsetup out e
  vout verr :
  let devSize := wrap64 (fSize + 16 * 1024 * 1024) in
  let loop := "/dev/loop" ++ itoa idx in
  os_Stat env (n_stat s) path = StatOk fSize ->
  os_CreateTemp env tempdir "crypt-" = Fine cryptF ->
  os_Truncate env cryptF devSize = None ->
  (devSize <? 0) = false ->
  loop_GetMaxLoopDevices env = Fine maxLoopDev ->
  loop_AttachFromPath env maxLoopDev
    {| Sizelimit := devSize; Offset := 0; Flags := LO_FLAGS_AUTOCLEAR |}
    cryptF O_RDWR = Fine idx ->
  bin_FindBin env "cryptsetup" = Fine cryptsetup ->
  String.eqb cryptsetup "" = false ->
  fs_IsOwner env cryptsetup 0 = true ->
  exec_StdinPipe env (luksFormat_Cmd cryptsetup [] loop) = None ->
  exec_CombinedOutput env (n_exec s) (luksFormat_Cmd cryptsetup key loop)
    = (out, Some e) ->
  exec_CombinedOutput env (Datatypes.S (n_exec s))
    (Command cryptsetup ["--version"]) = (vout, verr) ->
  (match verr with
   | Some _ => true
   | None => Contains vout "cryptsetup 2."
   end) = true ->
  exists s',
    EncryptFilesystem env fuel path key tempdir s
      = Some (Err (New ("unable to format crypt device: " ++ cryptF
                        ++ ": " ++ out)), s') /\
    attached (trace s') = (attached (trace s) ++ [idx])%list /\
    n_exec s' = (n_exec s + 2)%nat.
Proof.
  intros devSize loop Hstat Htemp Htrunc Hcast Hmax Hattach Hbin Hname Hown
    Hpipe Hformat Hversion Hsupported.
  unfold EncryptFilesystem, createLoop, safecast_ToUint64,
    checkCryptsetupVersion.
  unfold_calls.
  rewrite Hstat, Htemp. fold devSize. rewrite Htrunc, Hcast, Hmax, Hattach.
  rewrite Hbin, Hown. cbn [negb]. fold loop. rewrite Hpipe.
  crypt_simpl. rewrite Hformat.
  crypt_simpl. rewrite Hname. crypt_simpl. rewrite Hversion.
  destruct verr as [ve |]; crypt_simpl;
    [| rewrite Hsupported; crypt_simpl];
    (eexists; split; [reflexivity |]); cbn; split; try reflexivity; lia.
Qed.

Lemma Open_first_try fuel key path s fd cryptsetup size :
  lock_Exclusive env "/dev/mapper" = Fine fd ->
  bin_FindBin env "cryptsetup" = Fine cryptsetup ->
  fs_IsOwner env cryptsetup 0 = true ->
  opens_at env cryptsetup key path (n_uuid s) (n_exec s) = true ->
  os_Stat env (n_stat s) (mapper (name_at env (n_uuid s))) = StatOk size ->
  Open env (Datatypes.S fuel) key path s =
    Some (Ok (name_at env (n_uuid s)),
          record (EvRelease fd)
            (record (EvStat (mapper (name_at env (n_uuid s))))
               (tick_stat
                  (attempted (attempt_Cmd env cryptsetup key path (n_uuid s))
                     (record (EvLock "/dev/mapper" fd) s))))).
Proof.
  intros Hlock Hbin Hown Hopens Hstat.
  rewrite (Open_enters_loop env (Datatypes.S fuel) key path s fd cryptsetup
             Hlock Hbin Hown).
  rewrite openLoop_opened by exact Hopens.
  cbn [waitDevice n_uuid record]. unfold Stat, bind, ret.
  cbn [n_stat attempted record tick_exec tick_uuid]. rewrite Hstat.
  reflexivity.
Qed.

Lemma copyDeviceContents_copies source dest size s sourceFd destFd n :
  syscall_Open env source O_RDONLY = Fine sourceFd ->
  syscall_Open env dest O_WRONLY = Fine destFd ->
  reads_succeed env sourceFd ->
  writes_progress env destFd ->
  size <= int64_max - buffer_cap ->
  size <= supplied_len env sourceFd (n_read s) n ->
  exists fuel0, forall fuel, (fuel0 <= fuel)%nat ->
    exists s' n',
      copyDeviceContents env fuel source dest size s = Some (None, s') /\
      size <= supplied_len env sourceFd (n_read s) n' /\
      written destFd (trace s')
        = (written destFd (trace s)
           ++ supplied env sourceFd (n_read s) n')%list /\
      commands (trace s') = commands (trace s) /\
      attached (trace s') = attached (trace s) /\
      n_exec s' = n_exec s.
Proof.
  intros Hsrc Hdst Hreads Hwrites Hsize Hn.
  set (s0 := record (EvOpen dest destFd) (record (EvOpen source sourceFd) s)).
  destruct (copyLoop_terminates env source dest sourceFd destFd size
              Hreads Hwrites Hsize n 0 s0 ltac:(lia) Hn) as (fuel0 & Hfuel0).
  exists fuel0. intros fuel Hfuel.
  destruct (Hfuel0 fuel Hfuel) as (s1 & Hloop).
  rewrite (copyDeviceContents_runs_loop env fuel source dest size s
             sourceFd destFd Hsrc Hdst).
  fold s0. rewrite Hloop.
  destruct (copyLoop_returns env source dest sourceFd destFd size
              Hreads Hwrites Hsize fuel 0 s0 None s1 ltac:(lia) Hloop)
    as (_ & n' & Hn' & _ & Hwritten).
  destruct (commands_grows s0 s1
              (keeps_copyLoop env sourceFd destFd source dest size fuel 0
                 _ _ _ Hloop)) as [Hcmds Hatt].
  pose proof (copyLoop_n_exec sourceFd destFd source dest size fuel 0
                _ _ _ Hloop) as Hexec.
  exists (record (EvClose sourceFd) (record (EvClose destFd) s1)), n'.
  split; [reflexivity |].
  cbn [s0 n_read n_exec record trace written commands attached]
    in Hn', Hwritten, Hcmds, Hatt, Hexec |- *.
  repeat split; assumption.
Qed.

(** [EncryptFilesystem] once [luksFormat] has succeeded: what remains is
    [Open], the copy and the closing of the mapper. *)
Lemma EncryptFilesystem_after_format
  fuel path key tempdir s fSize cryptF maxLoopDev idx cryptsetup out :
  let devSize := wrap64 (fSize + 16 * 1024 * 1024) in
  let loop := "/dev/loop" ++ itoa idx in
  let s3 :=
    record (EvExec (luksFormat_Cmd cryptsetup key loop))
      (tick_exec
         (record (EvLoopAttach cryptF
                    {| Sizelimit := devSize; Offset := 0;
                       Flags := LO_FLAGS_AUTOCLEAR |} idx)
            (record (EvFileClose cryptF)
               (record (EvTruncate cryptF devSize)
                  (record (EvCreateTemp cryptF)
                     (record (EvStat path) (tick_stat s))))))) in
  os_Stat env (n_stat s) path = StatOk fSize ->
  os_CreateTemp env tempdir "crypt-" = Fine cryptF ->
  os_Truncate env cryptF devSize = None ->
  (devSize <? 0) = false ->
  loop_GetMaxLoopDevices env = Fine maxLoopDev ->
  loop_AttachFromPath env maxLoopDev
    {| Sizelimit := devSize; Offset := 0; Flags := LO_FLAGS_AUTOCLEAR |}
    cryptF O_RDWR = Fine idx ->
  bin_FindBin env "cryptsetup" = Fine cryptsetup ->
  fs_IsOwner env cryptsetup 0 = true ->
  exec_StdinPipe env (luksFormat_Cmd cryptsetup [] loop) = None ->
  exec_CombinedOutput env (n_exec s) (luksFormat_Cmd cryptsetup key loop)
    = (out, None) ->
  EncryptFilesystem env fuel path key tempdir s =
    match Open env fuel key loop s3 with
    | None => None
    | Some (Err e, s4) => Some (Err e, record (EvFileClose cryptF) s4)
    | Some (Ok nextCrypt, s4) =>
        match copyDeviceContents env fuel path (mapper nextCrypt) fSize s4 with
        | None => None
        | Some (Some e, s5) => Some (Err e, record (EvFileClose cryptF) s5)
        | Some (None, s5) =>
            let close := Command cryptsetup ["close"; nextCrypt] in
            Some (match lift_err (snd (exec_CombinedOutput env (n_exec s5) close))
                  with
                  | Some e => Err e
                  | None => Ok cryptF
                  end,
                  record (EvFileClose cryptF)
                    (record (EvExec close) (tick_exec s5)))
        end
    end.
Proof.
  intros devSize loop s3 Hstat Htemp Htrunc Hcast Hmax Hattach Hbin Hown
    Hpipe Hformat.
  unfold EncryptFilesystem, createLoop, safecast_ToUint64.
  unfold Stat, CreateTemp, Truncate, FileClose, GetMaxLoopDevices,
    AttachFromPath, FindBin, IsOwner, StdinPipe, CombinedOutput, Run, emit,
    defer, bind, ret, lift.
  rewrite Hstat, Htemp. fold devSize. rewrite Htrunc, Hcast, Hmax, Hattach.
  rewrite Hbin, Hown. cbn [negb]. fold loop. rewrite Hpipe.
  cbn [lift_err n_exec record tick_stat]. rewrite Hformat.
  cbn [snd fst lift_err]. fold s3.
  destruct (Open env fuel key loop s3) as [[[nextCrypt | e] s4] |];
    [| reflexivity ..].
  destruct (copyDeviceContents env fuel path (mapper nextCrypt) fSize s4)
    as [[[e |] s5] |]; [reflexivity | | reflexivity].
  unfold CombinedOutput. cbn [snd fst].
  destruct (lift_err (snd (exec_CombinedOutput env (n_exec s5)
                             (Command cryptsetup ["close"; nextCrypt]))));
    reflexivity.
Qed.

(** X20.  When every step succeeds (image found, temporary file
    created and sized to the image plus 16 MiB, loop device attached with
    that size limit, root-owned binary, [luksFormat], lock, [open] under
    the first name drawn, mapper device present, source and mapper
    opened, reads and writes that work and supply the image, [close]),
    then with enough fuel [EncryptFilesystem] returns the name of the
    temporary file, having run exactly [luksFormat], [open] and [close]
    in this order, attached exactly one loop device and written to the
    mapper device whole buffers read from the image that cover its
    size. *)
Theorem EncryptFilesystem_succeeds
  path key tempdir s fSize cryptF maxLoopDev idx cryptsetup out fd size
  sourceFd destFd n cout :
  let devSize := fSize + 16 * 1024 * 1024 in
  let loop := "/dev/loop" ++ itoa idx in
  let nextCrypt := name_at env (n_uuid s) in
  os_Stat env (n_stat s) path = StatOk fSize ->
  0 <= fSize <= int64_max - 16 * 1024 * 1024 ->
  os_CreateTemp env tempdir "crypt-" = Fine cryptF ->
  os_Truncate env cryptF devSize = None ->
  loop_GetMaxLoopDevices env = Fine maxLoopDev ->
  loop_AttachFromPath env maxLoopDev
    {| Sizelimit := devSize; Offset := 0; Flags := LO_FLAGS_AUTOCLEAR |}
    cryptF O_RDWR = Fine idx ->
  bin_FindBin env "cryptsetup" = Fine cryptsetup ->
  fs_IsOwner env cryptsetup 0 = true ->
  exec_StdinPipe env (luksFormat_Cmd cryptsetup [] loop) = None ->
  exec_CombinedOutput env (n_exec s) (luksFormat_Cmd cryptsetup key loop)
    = (out, None) ->
  lock_Exclusive env "/dev/mapper" = Fine fd ->
  opens_at env cryptsetup key loop (n_uuid s) (Datatypes.S (n_exec s)) = true ->
  os_Stat env (Datatypes.S (n_stat s)) (mapper nextCrypt) = StatOk size ->
  syscall_Open env path O_RDONLY = Fine sourceFd ->
  syscall_Open env (mapper nextCrypt) O_WRONLY = Fine destFd ->
  reads_succeed env sourceFd ->
  writes_progress env destFd ->
  fSize <= supplied_len env sourceFd (n_read s) n ->
  exec_CombinedOutput env (Datatypes.S (Datatypes.S (n_exec s)))
    (Command cryptsetup ["close"; nextCrypt]) = (cout, None) ->
  exists fuel0, forall fuel, (fuel0 <= fuel)%nat ->
    exists s' n',
      EncryptFilesystem env fuel path key tempdir s = Some (Ok cryptF, s') /\
      commands (trace s') =
        (commands (trace s)
         ++ [luksFormat_Cmd cryptsetup key loop;
             open_Cmd cryptsetup key loop nextCrypt;
             Command cryptsetup ["close"; nextCrypt]])%list /\
      attached (trace s') = (attached (trace s) ++ [idx])%list /\
      fSize <= supplied_len env sourceFd (n_read s) n' /\
      written destFd (trace s')
        = (written destFd (trace s)
           ++ supplied env sourceFd (n_read s) n')%list.
Proof.
  intros devSize loop nextCrypt Hstat Hsize Htemp Htrunc Hmax Hattach Hbin
    Hown Hpipe Hformat Hlock Hopens Hmapper Hsrc Hdst Hreads Hwrites Hn Hclose.
  assert (Hdev : wrap64 (fSize + 16 * 1024 * 1024) = devSize).
  { apply wrap64_id. unfold int64_max in *. subst devSize. lia. }
  assert (Hcast : (wrap64 (fSize + 16 * 1024 * 1024) <? 0) = false).
  { rewrite Hdev. apply Z.ltb_ge. subst devSize. lia. }
  pose proof Hcast as Hcast'. rewrite Hdev in Hcast'.
  set (s3 :=
    record (EvExec (luksFormat_Cmd cryptsetup key loop))
      (tick_exec
         (record (EvLoopAttach cryptF
                    {| Sizelimit := devSize; Offset := 0;
                       Flags := LO_FLAGS_AUTOCLEAR |} idx)
            (record (EvFileClose cryptF)
               (record (EvTruncate cryptF devSize)
                  (record (EvCreateTemp cryptF)
                     (record (EvStat path) (tick_stat s)))))))).
  set (s4 :=
    record (EvRelease fd)
      (record (EvStat (mapper nextCrypt))
         (tick_stat
            (attempted (attempt_Cmd env cryptsetup key loop (n_uuid s))
               (record (EvLock "/dev/mapper" fd) s3))))).
  destruct (copyDeviceContents_copies path (mapper nextCrypt) fSize s4
              sourceFd destFd n Hsrc Hdst Hreads Hwrites
              ltac:(unfold int64_max, buffer_cap in *; lia) Hn)
    as (fuel0 & Hcopy).
  exists (Datatypes.S fuel0). intros fuel Hfuel.
  destruct fuel as [| fuel]; [lia |].
  destruct (Hcopy (Datatypes.S fuel) ltac:(lia))
    as (s5 & n' & Hrun5 & Hn' & Hwritten & Hcmds & Hatt & Hexec).
  exists (record (EvFileClose cryptF)
            (record (EvExec (Command cryptsetup ["close"; nextCrypt]))
               (tick_exec s5))), n'.
  rewrite (EncryptFilesystem_after_format (Datatypes.S fuel) path key tempdir
             s fSize cryptF maxLoopDev idx cryptsetup out);
    rewrite ?Hdev; try assumption.
  fold loop. fold s3.
  rewrite (Open_first_try fuel key loop s3 fd cryptsetup size
             Hlock Hbin Hown Hopens Hmapper).
  change (name_at env (n_uuid s3)) with nextCrypt.
  change (attempt_Cmd env cryptsetup key loop (n_uuid s3))
    with (attempt_Cmd env cryptsetup key loop (n_uuid s)).
  fold s4. rewrite Hrun5.
  cbn zeta. rewrite Hexec.
  change (n_exec s4) with (Datatypes.S (Datatypes.S (n_exec s))).
  rewrite Hclose. cbn [snd lift_err].
  split; [reflexivity |].
  cbn [trace record tick_exec commands attached written].
  rewrite Hcmds, Hatt, Hwritten.
  cbn [s4 s3 trace record tick_exec tick_stat tick_uuid attempted commands
       attached written].
  unfold attempt_Cmd. fold nextCrypt.
  rewrite <- !app_assoc.
  repeat split; try reflexivity; exact Hn'.
Qed.

End EncryptFurther.

Lemma EncryptFilesystem_oversized_witness :
  exists e s',
    EncryptFilesystem Scenario.huge_image_host 0 "image.sqfs" Scenario.key
      "/tmp" init = Some (Err e, s') /\
    attached (trace s') = [] /\ n_exec s' = 0%nat.
Proof.
  apply (EncryptFilesystem_oversized Scenario.huge_image_host 0 "image.sqfs"
           Scenario.key "/tmp" init (int64_max - 1024) eq_refl).
  unfold int64_max. lia.
Defined.

Lemma EncryptFilesystem_format_failure_witness :
  exists s',
    EncryptFilesystem Scenario.not_luks_host 0 "image.sqfs" Scenario.key
      "/tmp" init
      = Some (Err (New ("unable to format crypt device: " ++ "/tmp/crypt-1"
                        ++ ": "
                        ++ "Device /dev/loop0 is not a valid LUKS device.")),
              s') /\
    attached (trace s') = [0] /\ n_exec s' = 2%nat.
Proof.
  apply (EncryptFilesystem_format_failure Scenario.not_luks_host 0
           "image.sqfs" Scenario.key "/tmp" init 4096 "/tmp/crypt-1" 256 0
           "/usr/sbin/cryptsetup"
           "Device /dev/loop0 is not a valid LUKS device." "exit status 1"
           "cryptsetup 2.6.1" None);
    reflexivity.
Defined.

Lemma image_host_io :
  reads_succeed Scenario.image_host 4 /\
  writes_progress Scenario.image_host 5.
Proof.
  split.
  - intros [| [| k]]; eexists; reflexivity.
  - intros k [| b data] Hne; [congruence |].
    eexists. split; [reflexivity |]. cbn [List.length]. lia.
Qed.

Lemma EncryptFilesystem_succeeds_witness :
  exists fuel0, forall fuel, (fuel0 <= fuel)%nat ->
    exists s',
      EncryptFilesystem Scenario.image_host fuel "image.sqfs" Scenario.key
        "/tmp" init = Some (Ok "/tmp/crypt-1", s') /\
      List.length (commands (trace s')) = 3%nat /\
      attached (trace s') = [0].
Proof.
  destruct (EncryptFilesystem_succeeds Scenario.image_host "image.sqfs"
              Scenario.key "/tmp" init 3 "/tmp/crypt-1" 256 0
              "/usr/sbin/cryptsetup" "" 3 0 4 5 2%nat ""
              eq_refl ltac:(unfold int64_max; lia)
              eq_refl eq_refl eq_refl eq_refl eq_refl eq_refl eq_refl
              eq_refl eq_refl eq_refl eq_refl eq_refl eq_refl
              (proj1 image_host_io) (proj2 image_host_io)
              ltac:(vm_compute; discriminate) eq_refl)
    as (fuel0 & Hrun).
  exists fuel0. intros fuel Hfuel.
  destruct (Hrun fuel Hfuel) as (s' & n' & Hs' & Hcmds & Hatt & _).
  exists s'. split; [exact Hs' |].
  split; [rewrite Hcmds; reflexivity | exact Hatt].
Defined.
